(** * antiSnore: the detection / actuation core of [server_improve_fixed.py]

    A shallow embedding of the parts of the server that decide how the
    pillow actuators are driven: the lock-guarded store [ThreadSafeData],
    the [GPIOController], the model-type detection of [ModelHandler] and
    the orchestration methods of [SnoreDetectionSystem].

    Python objects become records, dictionaries become [gmap]s, methods
    become computations in a state-and-exception monad over one [World]
    record.  What the program obtains from outside is data as well:
    hardware write failures, the stop event as other threads change it and
    the outcome of a join are read from the world, the microphone and the
    classifier of one detection cycle from a [DetectionEnv].  Every
    definition can therefore be run on a concrete world. *)

From Stdlib Require Import ZArith String Ascii List Bool Lia.
From Stdlib Require Import Floats.PrimFloat.
From Stdlib Require Import Sorting.Sorted.
From stdpp Require Import base gmap strings list.

Open Scope string_scope.
Open Scope list_scope.
Open Scope Z_scope.

(** ** Configuration ([SystemConfig]) *)

Record SystemConfig := mkConfig {
  PUMP_RELAY_PIN : Z;
  PUMP_RELAY_PIN_2 : Z;
  SOLENOID_VALVE_PIN_1 : Z;
  SOLENOID_VALVE_PIN_2 : Z;
  SAMPLE_RATE : Z;
  AUDIO_DURATION : Z;
  N_MELS : Z;
  CONFIDENCE_THRESHOLD : float;
  DETECTION_DELAY_MINUTES : Z;
  PUMP1_DURATION : Z;
  WAIT_BETWEEN_PUMPS : Z;
  PUMP2_DURATION : Z;
  MAX_DETECTION_HISTORY : Z;
  MAX_ACTIVITY_LOG : Z;
  MAX_AUDIO_FILES : Z;
  STATIC_FOLDER : string
}.

(** The dataclass defaults; [SystemConfig()] is always built without
    arguments, and the class attributes read by [ThreadSafeData] are these
    same defaults. *)
Definition default_config : SystemConfig := {|
  PUMP_RELAY_PIN := 17;
  PUMP_RELAY_PIN_2 := 27;
  SOLENOID_VALVE_PIN_1 := 23;
  SOLENOID_VALVE_PIN_2 := 24;
  SAMPLE_RATE := 48000;
  AUDIO_DURATION := 5;
  N_MELS := 128;
  CONFIDENCE_THRESHOLD := 0x1.b333333333333p-1%float;
  DETECTION_DELAY_MINUTES := 5;
  PUMP1_DURATION := 50;
  WAIT_BETWEEN_PUMPS := 60;
  PUMP2_DURATION := 20;
  MAX_DETECTION_HISTORY := 50;
  MAX_ACTIVITY_LOG := 200;
  MAX_AUDIO_FILES := 20;
  STATIC_FOLDER := "static"
|}.

(** ** Messages

    An f-string is kept as the list of its pieces, in order, so that no
    number formatting has to be modelled. *)

Inductive piece :=
  | Str (s : string)
  | Int (z : Z)
  | Flt (x : float)      (* {x}      *)
  | Flt2 (x : float)     (* {x:.2f}  *)
  | Boolean (b : bool)   (* {b}      *)
  | Lower (s : string).  (* {s.lower()} *)

Definition msg := list piece.

(** The [{"success": ..., "message": ...}] dictionaries returned to callers. *)
Record result := mkResult { success : bool; message : msg }.

(** ** The store ([ThreadSafeData]) *)

Inductive value :=
  | VBool (b : bool)
  | VInt (z : Z).

(** The classifier's answer, [ModelHandler.predict]'s dictionary. *)
Record prediction := mkPrediction {
  class_id : Z;
  class_name : string;
  confidence : float;
  model_type : string
}.

(** One entry of the detection history, as built by [record_and_predict]. *)
Record history_entry := mkEntry {
  timestamp : string;
  entry_result : prediction;
  audio_file : string
}.

(** [_activity_log] keeps the message of every entry; the wall-clock
    timestamp stored next to it is not part of the model. *)
Record ThreadSafeData := mkData {
  _detection_history : list history_entry;
  _activity_log : list msg;
  _system_status : gmap string value
}.

Definition ThreadSafeData_init : ThreadSafeData := {|
  _detection_history := [];
  _activity_log := [];
  _system_status :=
    <["is_recording" := VBool false]>
    (<["pump_status" := VBool false]>
    (<["auto_detect_enabled" := VBool false]>
    (<["detection_delay" := VInt 5]>
    (<["model_loaded" := VBool false]>
    (<["gpio_ready" := VBool false]>
    (<["snoring_response_active" := VBool false]> ∅))))))
|}.

(** [list.append(x)] followed by [if len(list) > cap: list.pop(0)]. *)
Definition append_bounded {A} (cap : Z) (l : list A) (x : A) : list A :=
  let l' := l ++ [x] in
  if Z.of_nat (length l') >? cap then tail l' else l'.

Definition add_detection_record (record : history_entry) (d : ThreadSafeData)
  : ThreadSafeData :=
  {| _detection_history :=
       append_bounded (MAX_DETECTION_HISTORY default_config)
                      (_detection_history d) record;
     _activity_log := _activity_log d;
     _system_status := _system_status d |}.

Definition add_log_entry (message : msg) (d : ThreadSafeData) : ThreadSafeData :=
  {| _detection_history := _detection_history d;
     _activity_log :=
       append_bounded (MAX_ACTIVITY_LOG default_config) (_activity_log d) message;
     _system_status := _system_status d |}.

Definition get_detection_history (d : ThreadSafeData) : list history_entry :=
  _detection_history d.

(** [dict.update(kwargs)]: the keys of [kwargs] win. *)
Definition update_status (kwargs : gmap string value) (d : ThreadSafeData)
  : ThreadSafeData :=
  {| _detection_history := _detection_history d;
     _activity_log := _activity_log d;
     _system_status := kwargs ∪ _system_status d |}.

Definition get_status (d : ThreadSafeData) : gmap string value :=
  _system_status d.

(** [status.get(key, False)] and [status[key]] read as a truth value. *)
Definition truthy (v : value) : bool :=
  match v with
  | VBool b => b
  | VInt z => negb (z =? 0)
  end.

Definition get_flag (status : gmap string value) (key : string) : bool :=
  match status !! key with
  | Some v => truthy v
  | None => false
  end.

(** ** The world: the system object and its environment *)

Inductive lock_name := GpioLock | RecordingLock.

Inductive target := ExecuteSnoringResponse | AutoDetectionLoop.

(** What a call does to the outside, in program order. *)
Inductive effect :=
  | Acquire (l : lock_name)
  | Release (l : lock_name)
  | GpioWrite (pin level : Z)           (* lgpio.gpio_write(h, pin, level) *)
  | Sleep (ms : Z)                      (* time.sleep(ms / 1000) *)
  | ThreadStart (t : target)            (* Thread(target=t, daemon=True).start() *)
  | Join (timeout_s : Z).               (* thread.join(timeout=timeout_s) *)

(** A [threading.Thread] handle as the methods see it. *)
Record Thread := mkThread { thread_target : target; is_alive : bool }.

Record World := mkWorld {
  data_store : ThreadSafeData;
  gpio_initialized : bool;
  (** level last written to each GPIO line *)
  line_level : gmap Z Z;
  effects : list effect;
  (** environment: for each coming [gpio_write], [Some e] when it raises
      an exception whose text is [e]; writes succeed once the list is used up *)
  gpio_faults : list (option string);
  (** [_auto_detection_stop_event] *)
  stop_event : bool;
  (** environment: what other threads do to the stop event before each
      poll of it ([Some true]: set, [Some false]: cleared, [None]: nothing) *)
  interference : list (option bool);
  _auto_detection_thread : option Thread;
  (** environment: for each coming [join], whether the joined thread ends
      within the timeout *)
  join_ends : list bool
}.

Definition set_data_store (f : ThreadSafeData -> ThreadSafeData) (w : World) : World :=
  {| data_store := f (data_store w);
     gpio_initialized := gpio_initialized w;
     line_level := line_level w;
     effects := effects w;
     gpio_faults := gpio_faults w;
     stop_event := stop_event w;
     interference := interference w;
     _auto_detection_thread := _auto_detection_thread w;
     join_ends := join_ends w |}.

Definition emit (e : effect) (w : World) : World :=
  {| data_store := data_store w;
     gpio_initialized := gpio_initialized w;
     line_level := line_level w;
     effects := effects w ++ [e];
     gpio_faults := gpio_faults w;
     stop_event := stop_event w;
     interference := interference w;
     _auto_detection_thread := _auto_detection_thread w;
     join_ends := join_ends w |}.

Definition set_line (pin level : Z) (w : World) : World :=
  {| data_store := data_store w;
     gpio_initialized := gpio_initialized w;
     line_level := <[pin := level]> (line_level w);
     effects := effects w;
     gpio_faults := gpio_faults w;
     stop_event := stop_event w;
     interference := interference w;
     _auto_detection_thread := _auto_detection_thread w;
     join_ends := join_ends w |}.

Definition set_gpio_faults (fs : list (option string)) (w : World) : World :=
  {| data_store := data_store w;
     gpio_initialized := gpio_initialized w;
     line_level := line_level w;
     effects := effects w;
     gpio_faults := fs;
     stop_event := stop_event w;
     interference := interference w;
     _auto_detection_thread := _auto_detection_thread w;
     join_ends := join_ends w |}.

Definition set_stop_event (b : bool) (rest : list (option bool)) (w : World) : World :=
  {| data_store := data_store w;
     gpio_initialized := gpio_initialized w;
     line_level := line_level w;
     effects := effects w;
     gpio_faults := gpio_faults w;
     stop_event := b;
     interference := rest;
     _auto_detection_thread := _auto_detection_thread w;
     join_ends := join_ends w |}.

Definition set_thread (t : option Thread) (js : list bool) (w : World) : World :=
  {| data_store := data_store w;
     gpio_initialized := gpio_initialized w;
     line_level := line_level w;
     effects := effects w;
     gpio_faults := gpio_faults w;
     stop_event := stop_event w;
     interference := interference w;
     _auto_detection_thread := t;
     join_ends := js |}.

(** ** Computations: state and exceptions *)

Inductive outcome (A : Type) :=
  | Returned (a : A)
  | Raised (e : string).
Arguments Returned {A} a.
Arguments Raised {A} e.

Definition M (A : Type) : Type := World -> outcome A * World.

Definition ret {A} (a : A) : M A := fun w => (Returned a, w).

Definition bind {A B} (m : M A) (f : A -> M B) : M B :=
  fun w =>
    match m w with
    | (Returned a, w') => f a w'
    | (Raised e, w') => (Raised e, w')
    end.

Definition raise {A} (e : string) : M A := fun w => (Raised e, w).

(** [try: m  except Exception as e: h e] *)
Definition try_except {A} (m : M A) (h : string -> M A) : M A :=
  fun w =>
    match m w with
    | (Returned a, w') => (Returned a, w')
    | (Raised e, w') => h e w'
    end.

(** [try: m  finally: fin]; also the exit of a [with] block. *)
Definition try_finally {A} (m : M A) (fin : M unit) : M A :=
  fun w =>
    match m w with
    | (r, w') =>
        match fin w' with
        | (Returned _, w'') => (r, w'')
        | (Raised e, w'') => (Raised e, w'')
        end
    end.

Declare Scope M_scope.
Delimit Scope M_scope with M.
Bind Scope M_scope with M.
Notation "x <- y ; z" := (bind y (fun x => z))
  (at level 20, y at level 100, z at level 200, only parsing) : M_scope.
Notation "y ;; z" := (bind y (fun _ => z))
  (at level 100, z at level 200, only parsing, right associativity) : M_scope.

Definition modify (f : World -> World) : M unit := fun w => (Returned tt, f w).
Definition gets {A} (f : World -> A) : M A := fun w => (Returned (f w), w).

Definition run {A} (m : M A) (w : World) : World := snd (m w).
Definition answer {A} (m : M A) (w : World) : outcome A := fst (m w).

(** The store's methods, lifted to the world. *)
Definition log (message : msg) : M unit := modify (set_data_store (add_log_entry message)).
Definition status_update (kwargs : gmap string value) : M unit :=
  modify (set_data_store (update_status kwargs)).
Definition status_snapshot : M (gmap string value) :=
  gets (fun w => get_status (data_store w)).

Definition sleep (ms : Z) : M unit := modify (emit (Sleep ms)).

(** [with lock: m] *)
Definition with_lock {A} (l : lock_name) (m : M A) : M A :=
  (modify (emit (Acquire l)) ;;
   try_finally m (modify (emit (Release l))))%M.

(** [lgpio.gpio_write(self.h, pin, level)] *)
Definition gpio_write (pin level : Z) : M unit :=
  fun w =>
    match gpio_faults w with
    | Some e :: rest => (Raised e, set_gpio_faults rest w)
    | None :: rest =>
        (Returned tt, emit (GpioWrite pin level) (set_line pin level (set_gpio_faults rest w)))
    | [] => (Returned tt, emit (GpioWrite pin level) (set_line pin level w))
    end.

(** ** String helper: [str.upper()]

    The code compares [action.upper()] with ["ON"].  No character other
    than [o], [O], [n] and [N] has [O] or [N] as its upper case, so on the
    bytes of the string the comparison is decided by the ASCII letters.
    [action.lower()] only appears inside a message and is kept there as the
    piece [Lower action]. *)

Definition upper_ascii (c : ascii) : ascii :=
  let n := nat_of_ascii c in
  if ((97 <=? n) && (n <=? 122))%nat then ascii_of_nat (n - 32) else c.

Fixpoint map_string (f : ascii -> ascii) (s : string) : string :=
  match s with
  | EmptyString => EmptyString
  | String c s' => String (f c) (map_string f s')
  end.

Definition upper : string -> string := map_string upper_ascii.

(** ** The actuator controller ([GPIOController]) *)

Section Controller.
Variable config : SystemConfig.

Definition control_pump (pin_number : Z) (action : string) : M result :=
    (init <- gets gpio_initialized;
     if negb init then
       ret {| success := false; message := [Str "GPIO not available"] |}
     else
       with_lock GpioLock
         (try_except
            (match
               (if pin_number =? 1 then
                  Some (PUMP_RELAY_PIN config, SOLENOID_VALVE_PIN_1 config)
                else if pin_number =? 2 then
                  Some (PUMP_RELAY_PIN_2 config, SOLENOID_VALVE_PIN_2 config)
                else None)
             with
             | None =>
                 ret {| success := false;
                        message := [Str "Invalid pump number (must be 1 or 2)"] |}
             | Some (pump_pin, valve_pin) =>
                 status_msg <-
                   (if String.eqb (upper action) "ON" then
                      (* Turn on valve first, then pump *)
                      gpio_write valve_pin 1 ;;
                      sleep 100 ;;
                      gpio_write pump_pin 1 ;;
                      (if pin_number =? 1
                       then status_update {[ "pump_status" := VBool true ]}
                       else ret tt) ;;
                      ret [Str "💨 Pump "; Int pin_number; Str " & Valve ";
                           Int pin_number; Str ": ON"]
                    else
                      (* Turn off pump first, then valve *)
                      gpio_write pump_pin 0 ;;
                      sleep 100 ;;
                      gpio_write valve_pin 0 ;;
                      (if pin_number =? 1
                       then status_update {[ "pump_status" := VBool false ]}
                       else ret tt) ;;
                      ret [Str "💨 Pump "; Int pin_number; Str " & Valve ";
                           Int pin_number; Str ": OFF"]);
                 log status_msg ;;
                 ret {| success := true;
                        message := [Str "Pump "; Int pin_number; Str " and Valve ";
                                    Int pin_number; Str " "; Lower action;
                                    Str " successful"] |}
             end)
            (fun e =>
               log [Str "❌ Pump "; Int pin_number; Str "/Valve "; Int pin_number;
                    Str " control error: "; Str e] ;;
               ret {| success := false; message := [Str e] |})))%M.

Definition control_valve (valve_number : Z) (action : string) : M result :=
    (init <- gets gpio_initialized;
     if negb init then
       ret {| success := false; message := [Str "GPIO not available"] |}
     else
       with_lock GpioLock
         (try_except
            (match
               (if valve_number =? 1 then Some (SOLENOID_VALVE_PIN_1 config)
                else if valve_number =? 2 then Some (SOLENOID_VALVE_PIN_2 config)
                else None)
             with
             | None =>
                 ret {| success := false;
                        message := [Str "Invalid valve number (must be 1 or 2)"] |}
             | Some valve_pin =>
                 status_msg <-
                   (if String.eqb (upper action) "ON" then
                      gpio_write valve_pin 1 ;;
                      ret [Str "🔧 Valve "; Int valve_number; Str ": ON"]
                    else
                      gpio_write valve_pin 0 ;;
                      ret [Str "🔧 Valve "; Int valve_number; Str ": OFF"]);
                 log status_msg ;;
                 ret {| success := true;
                        message := [Str "Valve "; Int valve_number; Str " ";
                                    Lower action; Str " successful"] |}
             end)
            (fun e =>
               log [Str "❌ Valve "; Int valve_number; Str " control error: "; Str e] ;;
               ret {| success := false; message := [Str e] |})))%M.

End Controller.

(** ** Model-type detection ([ModelHandler._detect_model_type])

    A Keras input shape is a tuple whose entries are integers or [None]
    (the batch dimension).  Reading [self.model.input_shape] may itself
    raise; the method catches that. *)

Definition dim_is (d : option Z) (n : Z) : bool :=
  match d with
  | Some z => z =? n
  | None => false
  end.

Definition _detect_model_type (input_shape : outcome (list (option Z))) : string :=
  match input_shape with
  | Raised _ => "legacy"
  | Returned shape =>
      if (length shape =? 2)%nat then
        if dim_is (nth 1 shape None) 40 then "legacy" else "unknown"
      else if (length shape =? 3)%nat then "improved"
      else "legacy"
  end.

(** ** The orchestrator ([SnoreDetectionSystem]) *)

(** [self._auto_detection_stop_event.is_set()], after whatever the other
    threads did to the event since the last poll. *)
Definition is_set : M bool :=
  fun w =>
    match interference w with
    | Some b :: rest => (Returned b, set_stop_event b rest w)
    | None :: rest => (Returned (stop_event w), set_stop_event (stop_event w) rest w)
    | [] => (Returned (stop_event w), w)
    end.

(** [for i in range(n): if stop.is_set(): interrupted; return
                        time.sleep(1)]
    The answer tells whether the loop left through [return]. *)
Fixpoint hold (n : nat) (interrupted : M unit) : M bool :=
  match n with
  | O => ret false
  | S k =>
      (stop <- is_set;
       if stop then interrupted ;; ret true
       else sleep 1000 ;; hold k interrupted)%M
  end.

(** The interval loop, with its progress line every 60 iterations; [i] is
    the loop variable and [n] the number of iterations left. *)
Fixpoint wait_between (total i : Z) (n : nat) : M bool :=
  match n with
  | O => ret false
  | S k =>
      (stop <- is_set;
       if stop then
         log [Str "⏹️ Snoring response interrupted during waiting period"] ;;
         ret true
       else
         sleep 1000 ;;
         (if (i + 1) mod 60 =? 0 then
            log [Str "⏰ Waiting... "; Int ((total - i - 1) / 60);
                 Str " minutes remaining"]
          else ret tt) ;;
         wait_between total (i + 1) k)%M
  end.

Definition ACTIVE : string := "snoring_response_active".

Section Orchestrator.
Variable config : SystemConfig.

(** The first statement of the sequence: it marks the sequence active. *)
Definition mark_active : M unit := status_update {[ ACTIVE := VBool true ]}.

(** The [finally] clause of the sequence. *)
Definition clear_active : M unit := status_update {[ ACTIVE := VBool false ]}.

(** The statements of the [try] block after the first one.  A branch that
    ends in [ret tt] without running what follows is a [return]. *)
Definition sequence_stages : M unit :=
  (log [Str "🔄 Starting snoring response sequence"] ;;
   log [Str "💨 Step 1: Activating Pump 1 & Valve 1 for ";
        Int (PUMP1_DURATION config); Str " seconds"] ;;
   pump1_result <- control_pump config 1 "ON";
   if success pump1_result then
     interrupted1 <-
       hold (Z.to_nat (PUMP1_DURATION config))
            (log [Str "⏹️ Snoring response interrupted during pump 1 operation"] ;;
             control_pump config 1 "OFF" ;; ret tt);
     if interrupted1 then ret tt
     else
       control_pump config 1 "OFF" ;;
       log [Str "✅ Step 1 completed: Pump 1 & Valve 1 turned off"] ;;
       log [Str "⏳ Step 2: Waiting "; Int (WAIT_BETWEEN_PUMPS config);
            Str " seconds (1 minutes) before next action"] ;;
       interrupted2 <-
         wait_between (WAIT_BETWEEN_PUMPS config) 0
                      (Z.to_nat (WAIT_BETWEEN_PUMPS config));
       if interrupted2 then ret tt
       else
         log [Str "💨 Step 3: Activating Pump 2 & Valve 2 for ";
              Int (PUMP2_DURATION config); Str " seconds"] ;;
         pump2_result <- control_pump config 2 "ON";
         if success pump2_result then
           interrupted3 <-
             hold (Z.to_nat (PUMP2_DURATION config))
                  (log [Str "⏹️ Snoring response interrupted during pump 2 operation"] ;;
                   control_pump config 2 "OFF" ;; ret tt);
           if interrupted3 then ret tt
           else
             control_pump config 2 "OFF" ;;
             log [Str "✅ Step 3 completed: Pump 2 & Valve 2 turned off"] ;;
             log [Str "🎯 Snoring response sequence completed successfully"]
         else
           log (Str "❌ Step 3 failed: " :: message pump2_result) ;;
           log [Str "🎯 Snoring response sequence completed successfully"]
   else
     log (Str "❌ Step 1 failed: " :: message pump1_result))%M.

(** The [except Exception as e] clause of the sequence. *)
Definition sequence_failed (e : string) : M unit :=
  (log [Str "❌ Snoring response sequence failed: "; Str e] ;;
   try_except
     (control_pump config 1 "OFF" ;; control_pump config 2 "OFF" ;; ret tt)
     (fun _ => ret tt))%M.

Definition _execute_snoring_response : M unit :=
  try_finally
    (try_except (mark_active ;; sequence_stages)%M sequence_failed)
    clear_active.

(** What the sequence thread still has to run once [mark_active] is done. *)
Definition sequence_after_mark : M unit :=
  try_finally (try_except sequence_stages sequence_failed) clear_active.

(** *** One detection cycle ([record_and_predict]) *)

(** What the microphone delivers to [AudioProcessor.record_audio]. *)
Inductive capture :=
  | Captured (filename : string) (samples : Z)
  | NoFrames
  | DeviceError (e : string).

(** What the classifier delivers to [ModelHandler.predict]. *)
Inductive predict_outcome :=
  | Predicted (r : prediction)
  | PredictNone
  | PredictError (e : string).

Record DetectionEnv := mkEnv {
  capture_result : capture;
  file_exists : bool;              (* os.path.exists(audio_path) *)
  file_size : Z;                   (* os.path.getsize(audio_path) *)
  predict_result : predict_outcome;
  timestamp_str : string;          (* datetime.now().strftime(...) *)
  removed_files : list string      (* the files cleanup_old_files deletes *)
}.

Definition path_join (folder filename : string) : string :=
  folder ++ "/" ++ filename.

(** [AudioProcessor.record_audio]; it answers the file path. *)
Definition record_audio (c : capture) : M string :=
  with_lock RecordingLock
    (try_finally
       (try_except
          (status_update {[ "is_recording" := VBool true ]} ;;
           log [Str "🎤 Recording audio ("; Int (AUDIO_DURATION config); Str "s @ ";
                Int (SAMPLE_RATE config); Str "Hz)"] ;;
           match c with
           | DeviceError e => raise e
           | NoFrames =>
               sleep (AUDIO_DURATION config * 1000) ;;
               raise "No audio data recorded"
           | Captured filename samples =>
               sleep (AUDIO_DURATION config * 1000) ;;
               log [Str "✅ Audio saved: "; Str filename; Str " (size: ";
                    Int samples; Str " samples)"] ;;
               ret (path_join (STATIC_FOLDER config) filename)
           end)
          (fun e =>
             log [Str "❌ Recording failed: "; Str e] ;;
             raise ("❌ Recording failed: " ++ e)))
       (status_update {[ "is_recording" := VBool false ]}))%M.

(** [ModelHandler.predict], which converts its failures to [None]. *)
Definition predict (p : predict_outcome) : M (option prediction) :=
  match p with
  | Predicted r => ret (Some r)
  | PredictNone => ret None
  | PredictError e => (log [Str "Prediction failed: "; Str e] ;; ret None)%M
  end.

(** [AudioProcessor.cleanup_old_files]: one log line per removed file. *)
Fixpoint cleanup_old_files (removed : list string) : M unit :=
  match removed with
  | [] => ret tt
  | f :: rest => (log [Str "🗑️ Cleaned up: "; Str f] ;; cleanup_old_files rest)%M
  end.

Definition basename (c : capture) : string :=
  match c with
  | Captured filename _ => filename
  | _ => ""
  end.

Definition snoring_names : list string := ["กรน"; "snoring"; "Snoring"; "SNORING"].

(** [result["class_name"] in ["กรน", "snoring", "Snoring", "SNORING"]] *)
Definition is_snoring (r : prediction) : bool :=
  existsb (String.eqb (class_name r)) snoring_names.

(** [result["confidence"] > self.config.CONFIDENCE_THRESHOLD * 100] *)
Definition confidence_above_threshold (r : prediction) : bool :=
  PrimFloat.ltb (CONFIDENCE_THRESHOLD config * 100)%float (confidence r).

(** [status = get_status(); already_active = status.get(ACTIVE, False)] *)
Definition snapshot_active : M bool :=
  (status <- status_snapshot; ret (get_flag status ACTIVE))%M.

Definition start_thread (t : target) : M unit := modify (emit (ThreadStart t)).

(** The rest of the qualifying branch, given the snapshot. *)
Definition respond_or_skip (r : prediction) (already_active : bool) : M unit :=
  (log [Str "🔬 Debug: snoring_response_already_active="; Boolean already_active] ;;
   if already_active then
     log [Str "⚠️ Snoring detected but response sequence already in progress"]
   else
     log [Str "🚨 TRIGGERING SNORING RESPONSE: '"; Str (class_name r);
          Str "' detected with "; Flt2 (confidence r); Str "% confidence > ";
          Flt (CONFIDENCE_THRESHOLD config * 100)%float; Str "%"] ;;
     start_thread ExecuteSnoringResponse ;;
     log [Str "🚀 Snoring response thread started"])%M.

Definition record_and_predict (env : DetectionEnv) : M (option prediction) :=
  try_except
    (audio_path <- record_audio (capture_result env);
     if String.eqb audio_path "" then
       log [Str "❌ Failed to record audio"] ;; ret None
     else if negb (file_exists env) then
       log [Str "❌ Audio file was not created: "; Str audio_path] ;; ret None
     else
       log [Str "📁 Audio file created: "; Str (basename (capture_result env));
            Str " ("; Int (file_size env); Str " bytes)"] ;;
       prediction <- predict (predict_result env);
       match prediction with
       | None => log [Str "❌ Prediction failed"] ;; ret None
       | Some r =>
           log [Str "🔍 Prediction: "; Str (class_name r); Str " (";
                Flt2 (confidence r); Str "%) [Model: "; Str (model_type r); Str "]"] ;;
           log [Str "🔬 Debug: Confidence "; Flt2 (confidence r); Str "% vs Threshold ";
                Flt (CONFIDENCE_THRESHOLD config * 100)%float; Str "% = ";
                Boolean (confidence_above_threshold r)] ;;
           modify (set_data_store (add_detection_record
                     {| timestamp := timestamp_str env;
                        entry_result := r;
                        audio_file := basename (capture_result env) |})) ;;
           log [Str "🔬 Debug: class_name='"; Str (class_name r);
                Str "', is_snoring="; Boolean (is_snoring r);
                Str ", confidence_above_threshold=";
                Boolean (confidence_above_threshold r)] ;;
           (if is_snoring r && confidence_above_threshold r then
              already_active <- snapshot_active;
              respond_or_skip r already_active
            else if is_snoring r then
              log [Str "ℹ️ Snoring ('"; Str (class_name r);
                   Str "') detected but confidence too low: "; Flt2 (confidence r);
                   Str "% <= "; Flt (CONFIDENCE_THRESHOLD config * 100)%float; Str "%"]
            else
              log [Str "ℹ️ No snoring detected - class: '"; Str (class_name r);
                   Str "' - no action needed"]) ;;
           cleanup_old_files (removed_files env) ;;
           ret (Some r)
       end)%M
    (fun e =>
       log [Str "❌ Record and predict failed: "; Str e] ;; ret None)%M.

End Orchestrator.

(** *** The supervisory loop's switch *)

Definition thread_alive (t : option Thread) : bool :=
  match t with
  | Some th => is_alive th
  | None => false
  end.

(** [self._auto_detection_thread.join(timeout=timeout_s)] *)
Definition join (timeout_s : Z) : M unit :=
  fun w =>
    match _auto_detection_thread w with
    | None => (Returned tt, w)
    | Some th =>
        let ended := hd true (join_ends w) in
        (Returned tt,
         emit (Join timeout_s)
              (set_thread (Some {| thread_target := thread_target th;
                                   is_alive := is_alive th && negb ended |})
                          (tail (join_ends w)) w))
    end.

Definition start_auto_detection : M result :=
  (t <- gets _auto_detection_thread;
   if thread_alive t then
     ret {| success := false; message := [Str "Auto detection already running"] |}
   else
     status_update {[ "auto_detect_enabled" := VBool true ]} ;;
     modify (fun w => set_stop_event false (interference w) w) ;;
     modify (fun w => set_thread (Some {| thread_target := AutoDetectionLoop;
                                          is_alive := true |})
                                 (join_ends w) w) ;;
     start_thread AutoDetectionLoop ;;
     log [Str "🤖 Auto detection started"] ;;
     ret {| success := true; message := [Str "Auto detection started"] |})%M.

Definition stop_auto_detection : M result :=
  (status_update {[ "auto_detect_enabled" := VBool false ]} ;;
   modify (fun w => set_stop_event true (interference w) w) ;;
   t <- gets _auto_detection_thread;
   (if thread_alive t then join 5 else ret tt) ;;
   log [Str "🤖 Auto detection stopped"] ;;
   ret {| success := true; message := [Str "Auto detection stopped"] |})%M.

(** [if not 1 <= delay_minutes <= 60: ...] *)
Definition set_detection_delay (delay_minutes : Z) : M result :=
  if negb ((1 <=? delay_minutes) && (delay_minutes <=? 60)) then
    ret {| success := false;
           message := [Str "Delay must be between 1 and 60 minutes"] |}
  else
    (status_update {[ "detection_delay" := VInt delay_minutes ]} ;;
     log [Str "⏲️ Detection delay set to "; Int delay_minutes; Str " minutes"] ;;
     ret {| success := true;
            message := [Str "Detection delay set to "; Int delay_minutes;
                        Str " minutes"] |})%M.

(** ** Threads: detections and sequences running side by side

    The world is shared; each thread owns a program counter.  A thread's
    step is one lock-guarded store call ([get_status], [update_status]) or
    the stretch of code up to the next one.  [record_and_predict] threads
    are followed from the point where the detection qualifies. *)

Module Interleaving.

Inductive pc :=
  | DetSnapshot (r : prediction)                 (* before get_status() *)
  | DetDecide (r : prediction) (already_active : bool)
  | DetDone
  | SeqStarting                                  (* started, first statement not run *)
  | SeqRunning                                   (* marked active, stages to run *)
  | SeqDone.

Record Config := mkConf { world : World; threads : list pc }.

Definition set_pc (i : nat) (p : pc) (ts : list pc) : list pc := <[i := p]> ts.

(** Thread [i] takes its next step; a finished or missing thread does not move. *)
Definition step (config : SystemConfig) (i : nat) (c : Config) : Config :=
  match threads c !! i with
  | Some (DetSnapshot r) =>
      match snapshot_active (world c) with
      | (Returned b, w') => {| world := w'; threads := set_pc i (DetDecide r b) (threads c) |}
      | (Raised _, w') => {| world := w'; threads := set_pc i DetDone (threads c) |}
      end
  | Some (DetDecide r b) =>
      let w' := run (respond_or_skip config r b) (world c) in
      {| world := w';
         threads := set_pc i DetDone (threads c) ++ (if b then [] else [SeqStarting]) |}
  | Some SeqStarting =>
      {| world := run mark_active (world c);
         threads := set_pc i SeqRunning (threads c) |}
  | Some SeqRunning =>
      {| world := run (sequence_after_mark config) (world c);
         threads := set_pc i SeqDone (threads c) |}
  | Some DetDone | Some SeqDone | None => c
  end.

(** Run a schedule: the list of the threads that move, in order. *)
Definition exec (config : SystemConfig) (schedule : list nat) (c : Config) : Config :=
  fold_left (fun c i => step config i c) schedule c.

Definition is_active_sequence (p : pc) : bool :=
  match p with
  | SeqRunning => true
  | _ => false
  end.

(** How many sequences have marked themselves active and not finished. *)
Definition active_sequences (c : Config) : nat :=
  length (filter (fun p => is_active_sequence p = true) (threads c)).

End Interleaving.

Definition is_sequence_start (e : effect) : bool :=
  match e with
  | ThreadStart ExecuteSnoringResponse => true
  | _ => false
  end.

(** How many sequence threads the calls recorded in [w] have started. *)
Definition started_sequences (w : World) : nat :=
  length (filter (fun e => is_sequence_start e = true) (effects w)).

Definition is_gpio_write (e : effect) : bool :=
  match e with
  | GpioWrite _ _ => true
  | _ => false
  end.

(** The hardware writes among the effects, in order. *)
Definition gpio_writes (es : list effect) : list effect :=
  filter (fun e => is_gpio_write e = true) es.

(** Record the detections [rs] one after the other, oldest first. *)
Definition record_all (rs : list history_entry) (d : ThreadSafeData) : ThreadSafeData :=
  fold_left (fun d r => add_detection_record r d) rs d.

(** ** Worlds used in the examples *)

Definition idle_world : World := {|
  data_store := update_status {[ "gpio_ready" := VBool true ]} ThreadSafeData_init;
  gpio_initialized := true;
  line_level := ∅;
  effects := [];
  gpio_faults := [];
  stop_event := false;
  interference := [];
  _auto_detection_thread := None;
  join_ends := []
|}.

Definition degraded_world : World := {|
  data_store := ThreadSafeData_init;
  gpio_initialized := false;
  line_level := ∅;
  effects := [];
  gpio_faults := [];
  stop_event := false;
  interference := [];
  _auto_detection_thread := None;
  join_ends := []
|}.

(** Level of a line; a line nobody wrote is at 0, the level it is claimed with. *)
Definition level (w : World) (pin : Z) : Z := default 0 (line_level w !! pin).

Definition channel_off (config : SystemConfig) (w : World) (channel : Z) : bool :=
  if channel =? 1 then
    (level w (PUMP_RELAY_PIN config) =? 0) && (level w (SOLENOID_VALVE_PIN_1 config) =? 0)
  else
    (level w (PUMP_RELAY_PIN_2 config) =? 0) && (level w (SOLENOID_VALVE_PIN_2 config) =? 0).

Definition sample (name : string) (conf : float) : prediction :=
  {| class_id := 1; class_name := name; confidence := conf; model_type := "improved" |}.

(** A detection record told apart from the others by its number. *)
Definition entry_numbered (n : nat) : history_entry :=
  {| timestamp := "2025-01-01 00:00:00";
     entry_result := {| class_id := Z.of_nat n; class_name := "กรน";
                        confidence := 90%float; model_type := "improved" |};
     audio_file := "recording.wav" |}.

(** Reading a call's answer: the [success] field of the dictionary it
    returned, and the pins of a channel. *)
Definition succeeded (o : outcome result) : bool :=
  match o with
  | Returned r => success r
  | Raised _ => false
  end.

Definition pump_pin_of (config : SystemConfig) (channel : Z) : Z :=
  if channel =? 1 then PUMP_RELAY_PIN config else PUMP_RELAY_PIN_2 config.

Definition valve_pin_of (config : SystemConfig) (channel : Z) : Z :=
  if channel =? 1 then SOLENOID_VALVE_PIN_1 config else SOLENOID_VALVE_PIN_2 config.

Definition no_fault (f : option string) : bool :=
  match f with
  | None => true
  | Some _ => false
  end.

(** The next [n] hardware writes of [w] do not raise. *)
Definition writes_succeed (n : nat) (w : World) : bool :=
  forallb no_fault (take n (gpio_faults w)).

(** A cycle whose capture succeeds and whose classifier answers [r]. *)
Definition cycle_env (r : prediction) : DetectionEnv := {|
  capture_result := Captured "recording_20250101_000000.wav" 240000;
  file_exists := true;
  file_size := 480044;
  predict_result := Predicted r;
  timestamp_str := "2025-01-01 00:00:05";
  removed_files := []
|}.


(** Channel 2 engaged by hand ([POST /api/pump]), then a stop request
    arriving before the sequence's first poll of the stop event. *)
Definition manual_channel_2_world : World :=
  let w := run (control_pump default_config 2 "ON") idle_world in
  set_stop_event (stop_event w) [Some true] w.

(** The idle system with a stop request arriving before the third poll of
    the stop event, that is after two seconds of the first hold. *)
Definition cancelled_world : World :=
  set_stop_event false [None; None; Some true] idle_world.

(** The idle system whose second hardware write is going to fail. *)
Definition faulty_world : World :=
  set_gpio_faults [None; Some "GPIO write failed"] idle_world.

(** Two detection threads, both past a qualifying classification. *)
Definition two_detections : Interleaving.Config := {|
  Interleaving.world := idle_world;
  Interleaving.threads :=
    [Interleaving.DetSnapshot (sample "กรน" 90);
     Interleaving.DetSnapshot (sample "กรน" 90)]
|}.

(** The line levels after channel [c] is switched on, and off. *)
Definition lines_on (config : SystemConfig) (c : Z) (L : gmap Z Z) : gmap Z Z :=
  <[pump_pin_of config c := 1]> (<[valve_pin_of config c := 1]> L).

Definition lines_off (config : SystemConfig) (c : Z) (L : gmap Z Z) : gmap Z Z :=
  <[valve_pin_of config c := 0]> (<[pump_pin_of config c := 0]> L).

(** A controller that is initialised, whose coming writes all succeed and
    whose lines are at the levels [L]. *)
Definition lines_are (L : gmap Z Z) (w : World) : Prop :=
  gpio_initialized w = true /\ gpio_faults w = [] /\ line_level w = L.

(** Total correctness of a computation: from a world in [P] it returns,
    with an answer and a world in [Q]. *)
Definition returns {A} (P : World -> Prop) (m : M A) (Q : A -> World -> Prop) : Prop :=
  forall w, P w -> exists a w', m w = (Returned a, w') /\ Q a w'.

(** ** Further methods of the server

    The parts of [server_improve_fixed.py] around the methods above: the
    manual pillow operations, the shutdown path, the supervisory loop, the
    post-processing of the classifier's output and the retention policy of
    the audio files. *)

(** *** Manual pillow operations ([adjust_pillow], [deflate_pillow]) *)

(** [duration_map = {1: 15, 2: 30, 3: 50}] *)
Definition duration_map : gmap Z Z := <[1 := 15]> (<[2 := 30]> (<[3 := 50]> ∅)).

Definition adjust_pillow (config : SystemConfig) (level : Z) : M result :=
  if negb (existsb (Z.eqb level) [1; 2; 3]) then
    ret {| success := false; message := [Str "Level must be 1, 2, or 3"] |}
  else
    try_except
      (log [Str "🛏️ Adjusting pillow to level "; Int level] ;;
       (* Step 1: Deflate first (pump 2 for 20 seconds) *)
       deflated <- control_pump config 2 "ON";
       if negb (success deflated) then ret deflated
       else
         sleep 20000 ;;
         control_pump config 2 "OFF" ;;
         (* Step 2: Inflate to desired level (pump 1) *)
         duration <- match duration_map !! level with
                     | Some d => ret d
                     | None => raise "KeyError"
                     end;
         inflated <- control_pump config 1 "ON";
         if negb (success inflated) then ret inflated
         else
           sleep (duration * 1000) ;;
           control_pump config 1 "OFF" ;;
           log [Str "✅ Pillow adjusted to level "; Int level] ;;
           ret {| success := true;
                  message := [Str "Pillow adjusted to level "; Int level] |})%M
      (fun e =>
         control_pump config 1 "OFF" ;;
         control_pump config 2 "OFF" ;;
         log [Str "❌ Pillow adjustment failed: "; Str e] ;;
         ret {| success := false; message := [Str e] |})%M.

Definition deflate_pillow (config : SystemConfig) : M result :=
  try_except
    (log [Str "🔄 Deflating pillow"] ;;
     deflated <- control_pump config 2 "ON";
     if negb (success deflated) then ret deflated
     else
       sleep 30000 ;;
       control_pump config 2 "OFF" ;;
       log [Str "✅ Pillow deflated"] ;;
       ret {| success := true; message := [Str "Pillow deflated"] |})%M
    (fun e =>
       control_pump config 2 "OFF" ;;
       log [Str "❌ Deflation failed: "; Str e] ;;
       ret {| success := false; message := [Str e] |})%M.

(** *** Shutdown ([GPIOController.cleanup], [SnoreDetectionSystem.cleanup]) *)

(** What [cleanup] does to the chip handle after the writes:
    [lgpio.gpio_free(h, pin)] and [lgpio.gpiochip_close(h)]. *)
Inductive release_op :=
  | GpioFree (pin : Z)
  | ChipClose.

(** [GPIOController.cleanup].  The writes go through [gpio_write], without
    the controller lock; the release operations that follow them act on the
    handle only and are answered, in order, next to the new world.  An
    exception is logged by the [logging] module alone. *)
Definition GPIOController_cleanup (config : SystemConfig) (w : World)
  : World * list release_op :=
  if gpio_initialized w then
    match (gpio_write (PUMP_RELAY_PIN config) 0 ;;
           gpio_write (PUMP_RELAY_PIN_2 config) 0 ;;
           gpio_write (SOLENOID_VALVE_PIN_1 config) 0 ;;
           gpio_write (SOLENOID_VALVE_PIN_2 config) 0)%M w with
    | (Returned _, w') =>
        (run (log [Str "✅ GPIO cleanup completed - All pumps and valves turned off"]) w',
         [GpioFree (PUMP_RELAY_PIN config); GpioFree (PUMP_RELAY_PIN_2 config);
          GpioFree (SOLENOID_VALVE_PIN_1 config); GpioFree (SOLENOID_VALVE_PIN_2 config);
          ChipClose])
    | (Raised _, w') => (w', [])
    end
  else (w, []).

(** [SnoreDetectionSystem.cleanup]: stop the loop, then release the GPIO. *)
Definition cleanup (config : SystemConfig) (w : World) : World * list release_op :=
  match stop_auto_detection w with
  | (Returned _, w') => GPIOController_cleanup config w'
  | (Raised _, w') => (w', [])
  end.

(** *** The supervisory loop ([_auto_detection_loop]) *)

(** [status[key]]: a missing key raises [KeyError]. *)
Definition status_item (status : gmap string value) (key : string) : M value :=
  match status !! key with
  | Some v => ret v
  | None => raise ("'" ++ key ++ "'")
  end.

(** A status value used as a number ([True] counts as 1). *)
Definition as_int (v : value) : Z :=
  match v with
  | VInt z => z
  | VBool b => if b then 1 else 0
  end.

Definition value_piece (v : value) : piece :=
  match v with
  | VInt z => Int z
  | VBool b => Boolean b
  end.

(** [self._auto_detection_stop_event.wait(1)]: the answer is whether the
    event is set, at the call or by another thread during the wait; only a
    wait that times out lasts its full second. *)
Definition wait_event : M bool :=
  (stop <- is_set;
   if stop then ret true else sleep 1000 ;; ret false)%M.

(** [for _ in range(n): if stop.wait(1): return]; the answer tells whether
    the loop left through [return]. *)
Fixpoint interruptible_wait (n : nat) : M bool :=
  match n with
  | O => ret false
  | S k => (stop <- wait_event; if stop then ret true else interruptible_wait k)%M
  end.

(** How an iteration of the loop ends: [Proceed] goes back to the [while]
    test, [Leave] is [break] or [return]. *)
Inductive flow := Proceed | Leave.

(** The body of the [while] loop, with its [try]/[except]. *)
Definition loop_body (config : SystemConfig) (env : DetectionEnv) : M flow :=
  try_except
    (status <- status_snapshot;
     enabled <- status_item status "auto_detect_enabled";
     if negb (truthy enabled) then ret Leave
     else
       recording <- status_item status "is_recording";
       if truthy recording || get_flag status ACTIVE then
         sleep 2000 ;; ret Proceed
       else
         detected <- record_and_predict config env;
         wait_seconds <-
           (match detected with
            | Some r =>
                if is_snoring r && confidence_above_threshold config r then
                  delay <- status_item status "detection_delay";
                  log [Str "✅ Snoring detected - Next detection in ";
                       value_piece delay; Str " minutes"] ;;
                  ret (as_int delay * 60)
                else ret 5
            | None => ret 5
            end);
         stopped <- interruptible_wait (Z.to_nat wait_seconds);
         if stopped then ret Leave else ret Proceed)%M
    (fun e =>
       log [Str "❌ Auto detection error: "; Str e] ;;
       sleep 10000 ;;
       ret Proceed)%M.

(** The loop, followed for as many iterations as there are environments in
    [envs]: the k-th iteration meets the k-th microphone and classifier. *)
Fixpoint _auto_detection_loop (config : SystemConfig) (envs : list DetectionEnv)
  : M unit :=
  match envs with
  | [] => ret tt
  | env :: rest =>
      (stop <- is_set;
       if stop then ret tt
       else
         next <- loop_body config env;
         match next with
         | Proceed => _auto_detection_loop config rest
         | Leave => ret tt
         end)%M
  end.

(** What a cycle answers, read off its environment. *)
Definition cycle_result (env : DetectionEnv) : option prediction :=
  match capture_result env, file_exists env, predict_result env with
  | Captured _ _, true, Predicted r => Some r
  | _, _, _ => None
  end.

(** *** The classifier's side ([ModelHandler]) *)

(** The two feature extractors [extract_features] chooses between. *)
Inductive pipeline := LegacyMfcc | ImprovedMel.

(** [extract_features]: the extractor run for a model type. *)
Definition extract_features (model_type : string) : pipeline :=
  if String.eqb model_type "legacy" then LegacyMfcc
  else if String.eqb model_type "improved" then ImprovedMel
  else LegacyMfcc.

(** The length normalisation both extractors apply to the trimmed clip:
    [audio[:target_length]] when the clip is longer than the target,
    [np.pad(audio, (0, target_length - len(audio)), 'constant')] otherwise. *)
Definition normalize_length (config : SystemConfig) (audio : list float) : list float :=
  let target_length := SAMPLE_RATE config * AUDIO_DURATION config in
  if Z.of_nat (length audio) >? target_length then
    take (Z.to_nat target_length) audio
  else
    audio ++ replicate (Z.to_nat (target_length - Z.of_nat (length audio))) 0%float.

(** [np.argmax] on a vector of floats: the first position of the greatest
    entry, a NaN counting as greatest; [best] is the entry at [best_i] and
    [i] the position of the head of the list. *)
Fixpoint argmax_from (best : float) (best_i i : nat) (l : list float) : nat :=
  match l with
  | [] => best_i
  | x :: rest =>
      if is_nan best then best_i
      else if negb (x <=? best)%float then argmax_from x i (S i) rest
      else argmax_from best best_i (S i) rest
  end.

Definition argmax (l : list float) : nat :=
  match l with
  | [] => 0%nat
  | x :: rest => argmax_from x 0 1 rest
  end.

(** [{v: k for k, v in class_to_index.items()}]: a later pair replaces an
    earlier one with the same index. *)
Definition index_to_class (class_to_index : list (string * Z)) : gmap Z string :=
  fold_left (fun m kv => <[snd kv := fst kv]> m) class_to_index ∅.

(** The post-processing of [predict]: from the model's output row to the
    result dictionary.  [label_mapping] is the [class_to_index] table when
    the label-mapping file was loaded and has one.  An empty row makes
    [np.argmax] raise, which [predict] answers with [None]. *)
Definition process_prediction (label_mapping : option (list (string * Z)))
    (model_type : string) (row : list float) : option prediction :=
  match row with
  | [] => None
  | first :: _ =>
      let '(class_id, confidence_percent) :=
        if (length row =? 1)%nat then
          let class_id := if (0.5 <? first)%float then 1 else 0 in
          (class_id,
           if class_id =? 1 then (first * 100)%float else ((1 - first) * 100)%float)
        else
          let class_id := argmax row in
          (Z.of_nat class_id, (nth class_id row 0 * 100)%float) in
      let class_name :=
        match label_mapping with
        | Some class_to_index =>
            default "Unknown" (index_to_class class_to_index !! class_id)
        | None => if class_id =? 1 then "กรน" else "ไม่กรน"
        end in
      Some {| class_id := class_id; class_name := class_name;
              confidence := confidence_percent; model_type := model_type |}
  end.

(** *** Retention of the audio files ([cleanup_old_files]) *)

Definition ends_with (suffix s : string) : bool :=
  (String.length suffix <=? String.length s)%nat
  && String.eqb (String.substring (String.length s - String.length suffix)
                                  (String.length suffix) s) suffix.

(** [file.startswith('recording_') and file.endswith('.wav')] *)
Definition is_recording_file (file : string) : bool :=
  String.prefix "recording_" file && ends_with ".wav" file.

(** A directory entry: the file name and its modification time, counted in
    clock ticks. *)
Definition entry : Type := string * Z.

(** [audio_files.sort(key=lambda x: x[1])]: ascending, and stable, so an
    entry goes behind the entries that are not newer. *)
Fixpoint insert_by_mtime (x : entry) (l : list entry) : list entry :=
  match l with
  | [] => [x]
  | y :: rest => if snd x <? snd y then x :: y :: rest else y :: insert_by_mtime x rest
  end.

Definition sort_by_mtime (l : list entry) : list entry :=
  fold_left (fun sorted x => insert_by_mtime x sorted) l [].

(** [l[:stop]] *)
Definition slice_until {A} (stop : Z) (l : list A) : list A :=
  if 0 <=? stop then take (Z.to_nat stop) l
  else take (Z.to_nat (Z.of_nat (length l) + stop)) l.

(** The recordings of the folder, oldest first. *)
Definition audio_files (listing : list entry) : list entry :=
  sort_by_mtime (filter (fun e => is_recording_file (fst e) = true) listing).

(** The files [cleanup_old_files] sets out to delete. *)
Definition files_to_remove (config : SystemConfig) (listing : list entry) : list entry :=
  if Z.of_nat (length (audio_files listing)) >? MAX_AUDIO_FILES config then
    slice_until (- MAX_AUDIO_FILES config) (audio_files listing)
  else [].

(** The recordings left when every deletion succeeds. *)
Definition files_kept (config : SystemConfig) (listing : list entry) : list entry :=
  drop (length (files_to_remove config listing)) (audio_files listing).

(** Mark the loop as switched on, as [start_auto_detection] leaves it. *)
Definition enabled_world : World := run start_auto_detection idle_world.

(** *** Helpers for stating the properties of these methods *)

Definition get_activity_log (d : ThreadSafeData) : list msg := _activity_log d.

(** Log the messages [ms] one after the other, oldest first. *)
Definition log_all (ms : list msg) (d : ThreadSafeData) : ThreadSafeData :=
  fold_left (fun d m => add_log_entry m d) ms d.

(** The effects of a successful [control_pump] call on channel [c]. *)
Definition switch_on (config : SystemConfig) (c : Z) : list effect :=
  [Acquire GpioLock; GpioWrite (valve_pin_of config c) 1; Sleep 100;
   GpioWrite (pump_pin_of config c) 1; Release GpioLock].

Definition switch_off (config : SystemConfig) (c : Z) : list effect :=
  [Acquire GpioLock; GpioWrite (pump_pin_of config c) 0; Sleep 100;
   GpioWrite (valve_pin_of config c) 0; Release GpioLock].

(** [n] one-second sleeps. *)
Definition seconds (n : Z) : list effect := replicate (Z.to_nat n) (Sleep 1000).

(** A world with sound hardware, told by its effects so far [E], its line
    levels [L], its stop event [s] and what other threads are still going
    to do to that event [I]. *)
Definition settled (E : list effect) (L : gmap Z Z) (s : bool)
    (I : list (option bool)) (w : World) : Prop :=
  gpio_initialized w = true /\ gpio_faults w = [] /\ line_level w = L
  /\ effects w = E /\ stop_event w = s /\ interference w = I.

(** The idle system whose next hardware write is going to fail. *)
Definition faulty_valve_world : World :=
  set_gpio_faults [Some "GPIO write failed"] idle_world.

(** A cycle whose microphone delivers no frame. *)
Definition silent_env : DetectionEnv := {|
  capture_result := NoFrames;
  file_exists := false;
  file_size := 0;
  predict_result := PredictNone;
  timestamp_str := "2025-01-01 00:00:05";
  removed_files := []
|}.

(** [a] is not newer than [b]. *)
Definition not_newer (a b : entry) : Prop := snd a <= snd b.

(** The default configuration with another limit on the kept recordings. *)
Definition with_audio_limit (n : Z) : SystemConfig :=
  {| PUMP_RELAY_PIN := PUMP_RELAY_PIN default_config;
     PUMP_RELAY_PIN_2 := PUMP_RELAY_PIN_2 default_config;
     SOLENOID_VALVE_PIN_1 := SOLENOID_VALVE_PIN_1 default_config;
     SOLENOID_VALVE_PIN_2 := SOLENOID_VALVE_PIN_2 default_config;
     SAMPLE_RATE := SAMPLE_RATE default_config;
     AUDIO_DURATION := AUDIO_DURATION default_config;
     N_MELS := N_MELS default_config;
     CONFIDENCE_THRESHOLD := CONFIDENCE_THRESHOLD default_config;
     DETECTION_DELAY_MINUTES := DETECTION_DELAY_MINUTES default_config;
     PUMP1_DURATION := PUMP1_DURATION default_config;
     WAIT_BETWEEN_PUMPS := WAIT_BETWEEN_PUMPS default_config;
     PUMP2_DURATION := PUMP2_DURATION default_config;
     MAX_DETECTION_HISTORY := MAX_DETECTION_HISTORY default_config;
     MAX_ACTIVITY_LOG := MAX_ACTIVITY_LOG default_config;
     MAX_AUDIO_FILES := n;
     STATIC_FOLDER := STATIC_FOLDER default_config |}.

(** * Properties *)

(** ** The detection history is a bounded FIFO *)

Section Fifo.
Context {A : Type}.

Lemma append_bounded_length (cap : nat) (l : list A) (x : A) :
  (length l <= cap)%nat ->
  (length (append_bounded (Z.of_nat cap) l x) <= cap)%nat.
Proof.
  intros Hl. unfold append_bounded.
  destruct (Z.gtb_spec (Z.of_nat (length (l ++ [x]))) (Z.of_nat cap)) as [Hgt | Hle].
  - destruct l as [| y l']; simpl in *; [lia |].
    rewrite length_app in *. simpl in *. lia.
  - lia.
Qed.

Lemma append_bounded_drop (cap : nat) (l : list A) (x : A) :
  (length l <= cap)%nat ->
  append_bounded (Z.of_nat cap) l x = drop (length (l ++ [x]) - cap) (l ++ [x]).
Proof.
  intros Hl. unfold append_bounded.
  assert (Hlen : length (l ++ [x]) = S (length l)) by (rewrite length_app; simpl; lia).
  destruct (Z.gtb_spec (Z.of_nat (length (l ++ [x]))) (Z.of_nat cap)) as [Hgt | Hle].
  - replace (length (l ++ [x]) - cap)%nat with 1%nat by lia.
    destruct (l ++ [x]); reflexivity.
  - replace (length (l ++ [x]) - cap)%nat with 0%nat by lia. reflexivity.
Qed.

End Fifo.

Lemma record_all_snoc rs r d :
  record_all (rs ++ [r]) d = add_detection_record r (record_all rs d).
Proof. unfold record_all. rewrite fold_left_app. reflexivity. Qed.

Lemma record_all_history (rs : list history_entry) :
  get_detection_history (record_all rs ThreadSafeData_init)
  = drop (length rs - 50) rs.
Proof.
  induction rs as [| r rs IH] using rev_ind.
  - reflexivity.
  - rewrite record_all_snoc. unfold get_detection_history in *. simpl.
    change 50 with (Z.of_nat 50).
    rewrite append_bounded_drop.
    + rewrite IH. rewrite !length_app, length_drop. simpl.
      destruct (le_lt_dec (length rs) 50) as [Hle | Hgt].
      * replace (length rs - 50)%nat with 0%nat by lia. simpl.
        f_equal. lia.
      * replace (length rs - (length rs - 50) + 1 - 50)%nat with 1%nat by lia.
        rewrite (drop_app_le rs) by lia.
        rewrite drop_app_le by (rewrite length_drop; lia).
        rewrite drop_drop. do 2 f_equal. lia.
    + rewrite IH, length_drop. lia.
Qed.

(** C8. The detection history is a FIFO buffer of capacity 50:
    [add_detection_record] appends the record at the end and then, when the
    length exceeds 50, removes the element at the front; starting from the
    empty history the buffer holds the last 50 records appended, so its
    length never exceeds 50 (a bound every append preserves), and after 51
    appends it holds the 50 records that followed the first one. *)
Theorem detection_history_fifo :
  (forall (d : ThreadSafeData) (r : history_entry),
      get_detection_history (add_detection_record r d)
      = let l := get_detection_history d ++ [r] in
        if (50 <? length l)%nat then tail l else l)
  /\ (forall rs : list history_entry,
        get_detection_history (record_all rs ThreadSafeData_init)
        = drop (length rs - 50) rs)
  /\ (forall rs : list history_entry,
        (length (get_detection_history (record_all rs ThreadSafeData_init)) <= 50)%nat)
  /\ (forall (d : ThreadSafeData) (r : history_entry),
        (length (get_detection_history d) <= 50)%nat ->
        (length (get_detection_history (add_detection_record r d)) <= 50)%nat)
  /\ (forall (r : history_entry) (rs : list history_entry),
        length rs = 50%nat ->
        get_detection_history (record_all (r :: rs) ThreadSafeData_init) = rs).
Proof.
  split; [| split; [| split; [| split]]].
  - intros d r. unfold get_detection_history, add_detection_record, append_bounded.
    simpl.
    destruct (Z.gtb_spec (Z.of_nat (length (_detection_history d ++ [r]))) 50),
             (Nat.ltb_spec 50 (length (_detection_history d ++ [r])));
      try reflexivity; lia.
  - apply record_all_history.
  - intros rs. rewrite record_all_history, length_drop. lia.
  - intros d r Hlen. apply (append_bounded_length 50). exact Hlen.
  - intros r rs Hlen. rewrite record_all_history. simpl length.
    rewrite Hlen. reflexivity.
Qed.

Lemma detection_history_fifo_witness :
  get_detection_history
    (record_all (entry_numbered 0 :: map entry_numbered (seq 1 50)) ThreadSafeData_init)
  = map entry_numbered (seq 1 50).
Proof.
  apply (proj2 (proj2 (proj2 (proj2 detection_history_fifo)))). reflexivity.
Defined.

(** ** Validation of the detection delay *)

Lemma update_status_insert (k : string) (v : value) (d : ThreadSafeData) :
  get_status (update_status {[ k := v ]} d) = <[k := v]> (get_status d).
Proof. unfold get_status, update_status. simpl. symmetry. apply insert_union_singleton_l. Qed.

(** C7. [set_detection_delay] accepts exactly the integers 1..60: inside
    the range it answers success and the stored delay becomes the argument,
    the other status fields keeping their values; outside the range it
    answers failure and leaves the whole system as it was (no clamping). *)
Theorem set_detection_delay_range (w : World) (delay_minutes : Z) :
  (1 <= delay_minutes <= 60 ->
     succeeded (answer (set_detection_delay delay_minutes) w) = true
     /\ get_status (data_store (run (set_detection_delay delay_minutes) w))
        = <["detection_delay" := VInt delay_minutes]> (get_status (data_store w)))
  /\ (~ 1 <= delay_minutes <= 60 ->
     answer (set_detection_delay delay_minutes) w
       = Returned {| success := false;
                     message := [Str "Delay must be between 1 and 60 minutes"] |}
     /\ run (set_detection_delay delay_minutes) w = w).
Proof.
  unfold set_detection_delay, answer, run. split.
  - intros [Hlo Hhi].
    apply Z.leb_le in Hlo, Hhi. rewrite Hlo, Hhi. simpl.
    split; [reflexivity |].
    apply update_status_insert.
  - intros Hout.
    destruct (Z.leb_spec 1 delay_minutes), (Z.leb_spec delay_minutes 60);
      simpl; try (split; reflexivity); lia.
Qed.

Lemma set_detection_delay_range_witness :
  (get_status (data_store (run (set_detection_delay 1) idle_world)) !! "detection_delay"
     = Some (VInt 1)
   /\ get_status (data_store (run (set_detection_delay 60) idle_world)) !! "detection_delay"
     = Some (VInt 60))
  /\ (run (set_detection_delay 0) idle_world = idle_world
      /\ run (set_detection_delay 61) idle_world = idle_world).
Proof.
  split; split.
  - destruct (proj1 (set_detection_delay_range idle_world 1)) as [_ ->]; [lia |].
    apply lookup_insert_eq.
  - destruct (proj1 (set_detection_delay_range idle_world 60)) as [_ ->]; [lia |].
    apply lookup_insert_eq.
  - apply (proj2 (set_detection_delay_range idle_world 0)). lia.
  - apply (proj2 (set_detection_delay_range idle_world 61)). lia.
Defined.

(** ** Model-type detection *)

(** C5, as the code has it: [(batch, 40)] gives legacy, any shape of rank
    three gives improved, a shape of rank two whose second entry is not 40
    gives unknown, and every shape of another rank, as well as a shape that
    cannot be read, gives legacy. *)
Theorem detect_model_type_cases :
  (forall batch, _detect_model_type (Returned [batch; Some 40]) = "legacy")
  /\ (forall batch timesteps bands,
        _detect_model_type (Returned [batch; timesteps; bands]) = "improved")
  /\ (forall batch features,
        dim_is features 40 = false ->
        _detect_model_type (Returned [batch; features]) = "unknown")
  /\ (forall shape,
        length shape <> 2%nat -> length shape <> 3%nat ->
        _detect_model_type (Returned shape) = "legacy")
  /\ (forall e, _detect_model_type (Raised e) = "legacy").
Proof.
  repeat split; try reflexivity.
  - intros batch features Hf. unfold _detect_model_type. simpl. rewrite Hf. reflexivity.
  - intros shape H2 H3. unfold _detect_model_type.
    apply Nat.eqb_neq in H2, H3. rewrite H2, H3. reflexivity.
Qed.

Lemma detect_model_type_cases_witness :
  _detect_model_type (Returned [None; Some 128]) = "unknown"
  /\ _detect_model_type (Returned [None; Some 40; Some 128; Some 1]) = "legacy".
Proof.
  split.
  - apply (proj1 (proj2 (proj2 detect_model_type_cases))). reflexivity.
  - apply (proj1 (proj2 (proj2 (proj2 detect_model_type_cases)))); simpl; lia.
Defined.

(** C5 as the spec words it fails: a two-dimensional shape whose feature
    count is not 40 is neither [(batch, 40)] nor three-dimensional, yet the
    answer is not legacy. *)
Lemma detect_model_type_not_legacy :
  _detect_model_type (Returned [None; Some 128]) <> "legacy".
Proof. discriminate. Qed.

(** ** The actuator controller *)

(** Evaluate a call on a world given by its fields, case by case on the
    coming write faults. *)
Ltac run_call :=
  unfold control_pump, control_valve, with_lock, try_finally, try_except, bind,
    gets, ret, modify, log, sleep, status_update, gpio_write, answer, run,
    succeeded; cbn.

Ltac split_faults faults :=
  destruct faults as [| [?|] [| [?|] ?]]; cbn.

Lemma control_pump_degraded (config : SystemConfig) (w : World) (pin_number : Z) (action : string) :
  gpio_initialized w = false ->
  control_pump config pin_number action w
  = (Returned {| success := false; message := [Str "GPIO not available"] |}, w).
Proof. intros Hinit. unfold control_pump, bind, gets, ret. rewrite Hinit. reflexivity. Qed.

Lemma gpio_writes_app (l1 l2 : list effect) :
  gpio_writes (l1 ++ l2) = gpio_writes l1 ++ gpio_writes l2.
Proof. unfold gpio_writes. apply filter_app. Qed.

(** C3. A call on channel 1 or 2 of an initialised controller writes the
    hardware in a fixed order, under the controller lock: for ON the valve
    line is raised, then comes the 100 ms settle sleep, then the pump line
    is raised; for any other action (OFF) the pump line is lowered, then
    the sleep, then the valve line is lowered.  When no write faults the
    call succeeds with exactly these effects; a successful call always has
    them, and a failed one stopped at a faulting write, having written at
    most the first line. *)
Theorem control_pump_write_order (config : SystemConfig) (w : World) (channel : Z) (action : string) :
  gpio_initialized w = true ->
  channel = 1 \/ channel = 2 ->
  let on := String.eqb (upper action) "ON" in
  let first := if on then GpioWrite (valve_pin_of config channel) 1
               else GpioWrite (pump_pin_of config channel) 0 in
  let second := if on then GpioWrite (pump_pin_of config channel) 1
                else GpioWrite (valve_pin_of config channel) 0 in
  let w' := run (control_pump config channel action) w in
  let ok := succeeded (answer (control_pump config channel action) w) in
  (writes_succeed 2 w = true -> ok = true)
  /\ (ok = true ->
      effects w' = effects w ++
        [Acquire GpioLock; first; Sleep 100; second; Release GpioLock])
  /\ (ok = false ->
      effects w' = effects w ++ [Acquire GpioLock; Release GpioLock]
      \/ effects w' = effects w ++
           [Acquire GpioLock; first; Sleep 100; Release GpioLock]).
Proof.
  intros Hinit Hchannel.
  destruct w as [ds init lines effs faults stop intf thr js].
  cbn in Hinit. subst init.
  unfold writes_succeed, valve_pin_of, pump_pin_of.
  destruct Hchannel as [-> | ->]; run_call;
    destruct (String.eqb (upper action) "ON"); split_faults faults;
    repeat split; intros; try discriminate; rewrite <- ?app_assoc; cbn; auto.
Qed.

Lemma control_pump_write_order_witness :
  effects (run (control_pump default_config 1 "ON") idle_world)
  = [Acquire GpioLock; GpioWrite 23 1; Sleep 100; GpioWrite 17 1; Release GpioLock]
  /\ effects (run (control_pump default_config 2 "OFF") idle_world)
  = [Acquire GpioLock; GpioWrite 27 0; Sleep 100; GpioWrite 24 0; Release GpioLock].
Proof.
  split.
  - apply (control_pump_write_order default_config idle_world 1 "ON");
      [reflexivity | left; reflexivity | reflexivity].
  - apply (control_pump_write_order default_config idle_world 2 "OFF");
      [reflexivity | right; reflexivity | reflexivity].
Defined.

(** C4. [control_pump] always returns a dictionary, whatever the arguments
    and whatever the hardware does.  With a channel other than 1 or 2 it
    answers failure and writes no line; on a controller whose GPIO
    initialisation failed it answers the "GPIO not available" failure
    without taking the lock, sleeping or writing: the world is untouched. *)
Theorem control_pump_never_raises
    (config : SystemConfig) (w : World) (pin_number : Z) (action : string) :
  (exists r, answer (control_pump config pin_number action) w = Returned r)
  /\ (pin_number <> 1 -> pin_number <> 2 ->
      succeeded (answer (control_pump config pin_number action) w) = false
      /\ gpio_writes (effects (run (control_pump config pin_number action) w))
         = gpio_writes (effects w)
      /\ line_level (run (control_pump config pin_number action) w) = line_level w)
  /\ (gpio_initialized w = false ->
      answer (control_pump config pin_number action) w
        = Returned {| success := false; message := [Str "GPIO not available"] |}
      /\ run (control_pump config pin_number action) w = w).
Proof.
  split; [| split].
  - destruct w as [ds [] lines effs faults stop intf thr js]; run_call;
      [| eexists; reflexivity].
    destruct (pin_number =? 1); [| destruct (pin_number =? 2)]; cbn;
      try (eexists; reflexivity);
      destruct (String.eqb (upper action) "ON"); split_faults faults;
      eexists; reflexivity.
  - intros H1 H2. apply Z.eqb_neq in H1, H2.
    destruct w as [ds [] lines effs faults stop intf thr js]; run_call;
      rewrite ?H1, ?H2; cbn; repeat split.
    rewrite <- app_assoc, gpio_writes_app. cbn. apply app_nil_r.
  - intros Hinit. unfold answer, run.
    rewrite control_pump_degraded by assumption. split; reflexivity.
Qed.

Lemma control_pump_never_raises_witness :
  (succeeded (answer (control_pump default_config 3 "ON") idle_world) = false
   /\ gpio_writes (effects (run (control_pump default_config 3 "ON") idle_world)) = [])
  /\ run (control_pump default_config 1 "ON") degraded_world = degraded_world.
Proof.
  split.
  - destruct (proj1 (proj2 (control_pump_never_raises default_config idle_world 3 "ON")))
      as (Hfail & Hwrites & _); [lia | lia |].
    split; [exact Hfail | exact Hwrites].
  - apply (proj2 (proj2 (control_pump_never_raises default_config degraded_world 1 "ON"))).
    reflexivity.
Defined.

(** C10. [pump_status] follows channel 1 only: a successful
    [control_pump] on channel 1 leaves it true after ON and false after any
    other action (OFF), whatever it was before; a [control_pump] call on any
    other channel and every [control_valve] call leave the whole status
    dictionary as it was. *)
Theorem pump_status_tracks_channel_1
    (config : SystemConfig) (w : World) (n : Z) (action : string) :
  (succeeded (answer (control_pump config 1 action) w) = true ->
     get_status (data_store (run (control_pump config 1 action) w)) !! "pump_status"
     = Some (VBool (String.eqb (upper action) "ON")))
  /\ (n <> 1 ->
      get_status (data_store (run (control_pump config n action) w))
      = get_status (data_store w))
  /\ get_status (data_store (run (control_valve config n action) w))
     = get_status (data_store w).
Proof.
  destruct w as [ds init lines effs faults stop intf thr js].
  split; [| split].
  - destruct init; run_call; [| discriminate].
    destruct (String.eqb (upper action) "ON"); split_faults faults;
      intros; try discriminate; unfold get_status; cbn;
      rewrite <- insert_union_singleton_l; apply lookup_insert_eq.
  - intros Hn. apply Z.eqb_neq in Hn.
    destruct init; run_call; rewrite ?Hn; [| reflexivity].
    destruct (n =? 2); cbn; [| reflexivity].
    destruct (String.eqb (upper action) "ON"); split_faults faults; reflexivity.
  - destruct init; run_call; [| reflexivity].
    destruct (n =? 1); [| destruct (n =? 2)]; cbn; try reflexivity;
      destruct (String.eqb (upper action) "ON");
      destruct faults as [| [?|] ?]; reflexivity.
Qed.

Lemma pump_status_tracks_channel_1_witness :
  get_status (data_store (run (control_pump default_config 1 "ON") idle_world))
    !! "pump_status" = Some (VBool true)
  /\ get_status (data_store
       (run (control_pump default_config 1 "OFF")
            (run (control_pump default_config 1 "ON") idle_world)))
    !! "pump_status" = Some (VBool false)
  /\ get_status (data_store
       (run (control_pump default_config 2 "ON")
            (run (control_pump default_config 1 "ON") idle_world)))
    !! "pump_status" = Some (VBool true).
Proof.
  split; [| split].
  - apply (proj1 (pump_status_tracks_channel_1 default_config idle_world 1 "ON")).
    reflexivity.
  - apply (proj1 (pump_status_tracks_channel_1 default_config
                    (run (control_pump default_config 1 "ON") idle_world) 1 "OFF")).
    reflexivity.
  - rewrite (proj1 (proj2 (pump_status_tracks_channel_1 default_config
                    (run (control_pump default_config 1 "ON") idle_world) 2 "ON")))
      by lia.
    apply (proj1 (pump_status_tracks_channel_1 default_config idle_world 1 "ON")).
    reflexivity.
Defined.

(** ** Starting and stopping the supervisory loop *)

Ltac run_switch :=
  unfold start_auto_detection, stop_auto_detection, join, start_thread, bind, gets,
    ret, modify, log, status_update, answer, run, succeeded; cbn.

(** C9. While a loop thread is alive [start_auto_detection] answers the
    "already running" failure and changes nothing: no thread is started.
    [stop_auto_detection] always answers success, sets the stop event and
    clears [auto_detect_enabled]; it joins the loop thread, with the 5 s
    timeout, exactly when that thread is alive, so that without a running
    loop it starts nothing, joins nothing and leaves the thread handle and
    the hardware lines alone. *)
Theorem auto_detection_start_stop (w : World) :
  (thread_alive (_auto_detection_thread w) = true ->
     answer start_auto_detection w
       = Returned {| success := false;
                     message := [Str ("Auto detection " ++ "already running")] |}
     /\ run start_auto_detection w = w)
  /\ (succeeded (answer stop_auto_detection w) = true
      /\ stop_event (run stop_auto_detection w) = true
      /\ get_status (data_store (run stop_auto_detection w)) !! "auto_detect_enabled"
         = Some (VBool false)
      /\ effects (run stop_auto_detection w)
         = effects w ++ (if thread_alive (_auto_detection_thread w) then [Join 5] else []))
  /\ (thread_alive (_auto_detection_thread w) = false ->
      succeeded (answer stop_auto_detection w) = true
      /\ effects (run stop_auto_detection w) = effects w
      /\ _auto_detection_thread (run stop_auto_detection w) = _auto_detection_thread w
      /\ line_level (run stop_auto_detection w) = line_level w).
Proof.
  destruct w as [ds init lines effs faults stop intf thr js].
  split; [| split].
  - cbn. intros Halive. run_switch. rewrite Halive. split; reflexivity.
  - run_switch. destruct thr as [[tgt []] |]; cbn;
      rewrite ?app_nil_r; repeat split;
      unfold get_status; cbn;
      rewrite <- insert_union_singleton_l; apply lookup_insert_eq.
  - cbn. intros Hdead. run_switch. rewrite Hdead. cbn. repeat split.
Qed.

Lemma auto_detection_start_stop_witness :
  (succeeded (answer start_auto_detection (run start_auto_detection idle_world)) = false
   /\ run start_auto_detection (run start_auto_detection idle_world)
      = run start_auto_detection idle_world)
  /\ (succeeded (answer stop_auto_detection idle_world) = true
      /\ effects (run stop_auto_detection idle_world) = []).
Proof.
  split.
  - destruct (proj1 (auto_detection_start_stop (run start_auto_detection idle_world)))
      as [Hanswer Hsame]; [reflexivity |].
    split; [rewrite Hanswer; reflexivity | exact Hsame].
  - destruct (proj2 (proj2 (auto_detection_start_stop idle_world)))
      as (Hok & Heffects & _); [reflexivity |].
    split; [exact Hok | exact Heffects].
Defined.

(** A loop that is not running is started once: the handle is set and one
    loop thread is started. *)
Lemma start_auto_detection_spawns (w : World) :
  thread_alive (_auto_detection_thread w) = false ->
  succeeded (answer start_auto_detection w) = true
  /\ effects (run start_auto_detection w) = effects w ++ [ThreadStart AutoDetectionLoop]
  /\ thread_alive (_auto_detection_thread (run start_auto_detection w)) = true
  /\ stop_event (run start_auto_detection w) = false.
Proof.
  destruct w as [ds init lines effs faults stop intf thr js]. cbn.
  intros Hdead. run_switch. rewrite Hdead. cbn. repeat split.
Qed.

(** ** One detection cycle *)

Lemma path_join_nonempty (folder filename : string) :
  String.eqb (path_join folder filename) "" = false.
Proof. unfold path_join. destruct folder; reflexivity. Qed.

Lemma cleanup_old_files_runs (removed : list string) (w : World) :
  cleanup_old_files removed w
  = (Returned tt,
     set_data_store
       (fun d => fold_left (fun d f => add_log_entry [Str "🗑️ Cleaned up: "; Str f] d)
                           removed d) w).
Proof.
  revert w. induction removed as [| f rest IH]; intros w.
  - destruct w; reflexivity.
  - cbn [cleanup_old_files]. unfold bind, log, modify. rewrite IH. reflexivity.
Qed.

Lemma started_sequences_snoc (es : list effect) (e : effect) :
  length (filter (fun e => is_sequence_start e = true) (es ++ [e]))
  = (length (filter (fun e => is_sequence_start e = true) es)
     + (if is_sequence_start e then 1 else 0))%nat.
Proof.
  rewrite filter_app, length_app. f_equal.
  destruct e as [| | | | [] |]; reflexivity.
Qed.

Arguments is_snoring : simpl never.
Arguments confidence_above_threshold : simpl never.

Ltac run_cycle :=
  unfold record_and_predict, record_audio, predict, snapshot_active, respond_or_skip,
    status_snapshot, start_thread, with_lock, try_finally, try_except, bind, gets, ret,
    raise, modify, log, sleep, status_update, answer, run; cbn.


Lemma default_threshold_percent :
  (CONFIDENCE_THRESHOLD default_config * 100)%float = 85%float.
Proof. reflexivity. Qed.



(** ** The actuation sequence *)

(** *** Rules for computations that return *)

Section Returns.
Context {A B : Type}.

Lemma returns_ret (P : World -> Prop) (a : A) (Q : A -> World -> Prop) :
  (forall w, P w -> Q a w) -> returns P (ret a) Q.
Proof. intros HQ w HP. exists a, w. split; [reflexivity | auto]. Qed.

Lemma returns_bind (P : World -> Prop) (m : M A) (Q : A -> World -> Prop)
      (f : A -> M B) (R : B -> World -> Prop) :
  returns P m Q -> (forall a, returns (Q a) (f a) R) -> returns P (bind m f) R.
Proof.
  intros Hm Hf w HP. destruct (Hm w HP) as (a & w1 & Em & HQ).
  destruct (Hf a w1 HQ) as (b & w2 & Ef & HR).
  exists b, w2. unfold bind. rewrite Em. split; assumption.
Qed.

Lemma returns_weaken (P : World -> Prop) (m : M A) (Q Q' : A -> World -> Prop) :
  returns P m Q -> (forall a w, Q a w -> Q' a w) -> returns P m Q'.
Proof.
  intros Hm HQ w HP. destruct (Hm w HP) as (a & w1 & Em & Hq).
  exists a, w1. split; auto.
Qed.

Lemma returns_try_except (P : World -> Prop) (m : M A) (h : string -> M A)
      (Q : A -> World -> Prop) :
  returns P m Q -> returns P (try_except m h) Q.
Proof.
  intros Hm w HP. destruct (Hm w HP) as (a & w1 & Em & Hq).
  exists a, w1. unfold try_except. rewrite Em. split; auto.
Qed.

Lemma returns_try_finally (P : World -> Prop) (m : M A) (fin : M unit)
      (Q R : A -> World -> Prop) :
  returns P m Q -> (forall a, returns (Q a) fin (fun _ => R a)) ->
  returns P (try_finally m fin) R.
Proof.
  intros Hm Hfin w HP. destruct (Hm w HP) as (a & w1 & Em & Hq).
  destruct (Hfin a w1 Hq) as (u & w2 & Ef & HR).
  exists a, w2. unfold try_finally. rewrite Em, Ef. split; auto.
Qed.

End Returns.

(** *** The steps of the sequence keep the controller sound *)

Lemma lines_are_log (L : gmap Z Z) (message : msg) :
  returns (lines_are L) (log message) (fun _ => lines_are L).
Proof. intros w HP. exists tt, (set_data_store (add_log_entry message) w). split; auto. Qed.

Lemma lines_are_status_update (L : gmap Z Z) (kwargs : gmap string value) :
  returns (lines_are L) (status_update kwargs) (fun _ => lines_are L).
Proof. intros w HP. exists tt, (set_data_store (update_status kwargs) w). split; auto. Qed.

Lemma lines_are_sleep (L : gmap Z Z) (ms : Z) :
  returns (lines_are L) (sleep ms) (fun _ => lines_are L).
Proof. intros w HP. exists tt, (emit (Sleep ms) w). split; auto. Qed.

Lemma lines_are_is_set (L : gmap Z Z) :
  returns (lines_are L) is_set (fun _ => lines_are L).
Proof.
  intros w HP. unfold is_set.
  destruct (interference w) as [| [b |] rest]; eexists _, _; split; try reflexivity; auto.
Qed.

Lemma lines_are_control_pump_on (config : SystemConfig) (L : gmap Z Z) (c : Z) :
  c = 1 \/ c = 2 ->
  returns (lines_are L) (control_pump config c "ON")
          (fun r w => success r = true /\ lines_are (lines_on config c L) w).
Proof.
  intros Hc w (Hinit & Hfaults & Hlines).
  destruct w as [ds init lines effs faults stop intf thr js].
  cbn in Hinit, Hfaults, Hlines. subst.
  destruct Hc as [-> | ->]; eexists _, _; split; try reflexivity; repeat split.
Qed.

Lemma lines_are_control_pump_off (config : SystemConfig) (L : gmap Z Z) (c : Z) :
  c = 1 \/ c = 2 ->
  returns (lines_are L) (control_pump config c "OFF")
          (fun r w => success r = true /\ lines_are (lines_off config c L) w).
Proof.
  intros Hc w (Hinit & Hfaults & Hlines).
  destruct w as [ds init lines effs faults stop intf thr js].
  cbn in Hinit, Hfaults, Hlines. subst.
  destruct Hc as [-> | ->]; eexists _, _; split; try reflexivity; repeat split.
Qed.

(** A hold leaves the lines as they were, unless it is interrupted: then
    the channel it was holding has been switched off. *)
Lemma lines_are_hold (config : SystemConfig) (c : Z) (note : msg) (n : nat) (L : gmap Z Z) :
  c = 1 \/ c = 2 ->
  returns (lines_are L)
          (hold n (log note ;; control_pump config c "OFF" ;; ret tt)%M)
          (fun interrupted =>
             lines_are (if interrupted then lines_off config c L else L)).
Proof.
  intros Hc. induction n as [| n IH]; cbn [hold].
  - apply returns_ret. auto.
  - eapply returns_bind; [apply lines_are_is_set |].
    intros [|].
    + eapply returns_bind; [| intros ?; apply returns_ret; intros w Hw; exact Hw].
      eapply returns_bind; [apply lines_are_log |]. intros ?; cbv beta.
      eapply returns_bind; [apply (lines_are_control_pump_off config L c Hc) |].
      intros r. apply returns_ret. intros w [_ Hw]. exact Hw.
    + eapply returns_bind; [apply lines_are_sleep |]. intros ?; cbv beta. exact IH.
Qed.

Lemma lines_are_wait_between (L : gmap Z Z) (total : Z) (n : nat) (i : Z) :
  returns (lines_are L) (wait_between total i n) (fun _ => lines_are L).
Proof.
  revert i. induction n as [| n IH]; intros i; cbn [wait_between].
  - apply returns_ret. auto.
  - eapply returns_bind; [apply lines_are_is_set |].
    intros [|].
    + eapply returns_bind; [apply lines_are_log |]. intros ?; cbv beta.
      apply returns_ret. auto.
    + eapply returns_bind; [apply lines_are_sleep |]. intros ?; cbv beta.
      eapply returns_bind; [| intros ?; apply IH].
      destruct ((i + 1) mod 60 =? 0); [apply lines_are_log | apply returns_ret; auto].
Qed.

(** With sound hardware the stages end in one of two line states: channel
    1 switched on and off again, possibly followed by the same for channel
    2. *)
Lemma sequence_stages_lines (config : SystemConfig) (L : gmap Z Z) :
  returns (lines_are L) (sequence_stages config)
          (fun _ w =>
             lines_are (lines_off config 1 (lines_on config 1 L)) w
             \/ lines_are (lines_off config 2 (lines_on config 2
                            (lines_off config 1 (lines_on config 1 L)))) w).
Proof.
  unfold sequence_stages.
  eapply returns_bind; [apply lines_are_log |]. intros ?; cbv beta.
  eapply returns_bind; [apply lines_are_log |]. intros ?; cbv beta.
  eapply returns_bind; [apply (lines_are_control_pump_on config L 1); auto |].
  intros r1 w1 [Hok1 Hw1]. rewrite Hok1. revert w1 Hw1.
  eapply returns_bind; [apply lines_are_hold; auto |].
  intros [|]; [apply returns_ret; auto |].
  eapply returns_bind; [apply (lines_are_control_pump_off config _ 1); auto |].
  intros r2.
  eapply returns_bind; [intros w2 [_ Hw2]; apply (lines_are_log _ _ w2 Hw2) |].
  intros ?; cbv beta.
  eapply returns_bind; [apply lines_are_log |]. intros ?; cbv beta.
  eapply returns_bind; [apply lines_are_wait_between |].
  intros [|]; [apply returns_ret; auto |].
  eapply returns_bind; [apply lines_are_log |]. intros ?; cbv beta.
  eapply returns_bind; [apply (lines_are_control_pump_on config _ 2); auto |].
  intros r3 w3 [Hok3 Hw3]. rewrite Hok3. revert w3 Hw3.
  eapply returns_bind; [apply lines_are_hold; auto |].
  intros [|].
  - apply returns_ret. auto.
  - eapply returns_bind; [apply (lines_are_control_pump_off config _ 2); auto |].
    intros r4.
    eapply returns_bind; [intros w4 [_ Hw4]; apply (lines_are_log _ _ w4 Hw4) |].
    intros ?; cbv beta.
    eapply returns_weaken; [apply lines_are_log |]. auto.
Qed.

Lemma level_after_cycle (config : SystemConfig) (c q : Z) (L : gmap Z Z) :
  default 0 (lines_off config c (lines_on config c L) !! q)
  = if decide (q = valve_pin_of config c \/ q = pump_pin_of config c) then 0
    else default 0 (L !! q).
Proof.
  unfold lines_off, lines_on. rewrite !lookup_insert.
  repeat case_decide; subst; try reflexivity; exfalso; intuition congruence.
Qed.

Lemma channel_off_levels (config : SystemConfig) (w : World) (c : Z) :
  channel_off config w c = true
  <-> level w (pump_pin_of config c) = 0 /\ level w (valve_pin_of config c) = 0.
Proof.
  unfold channel_off, pump_pin_of, valve_pin_of.
  destruct (c =? 1); rewrite andb_true_iff, !Z.eqb_eq; reflexivity.
Qed.

(** The handler of the sequence never raises. *)
Lemma sequence_failed_returns (config : SystemConfig) (e : string) (w : World) :
  exists w', sequence_failed config e w = (Returned tt, w').
Proof.
  unfold sequence_failed, log, modify. unfold bind at 1. unfold try_except.
  destruct ((control_pump config 1 "OFF";; control_pump config 2 "OFF";; ret tt)%M
              (set_data_store
                 (add_log_entry [Str "❌ Snoring response sequence failed: "; Str e]) w))
    as [[[] | e'] w1]; eexists; reflexivity.
Qed.

Lemma clear_active_clears (w : World) :
  clear_active w = (Returned tt, set_data_store (update_status {[ ACTIVE := VBool false ]}) w)
  /\ get_status (data_store (set_data_store (update_status {[ ACTIVE := VBool false ]}) w))
       !! ACTIVE = Some (VBool false).
Proof.
  split; [reflexivity |]. cbn [data_store set_data_store].
  rewrite update_status_insert. apply lookup_insert_eq.
Qed.

Lemma try_finally_clear_active {A} (m : M A) (w : World) :
  exists w', try_finally m clear_active w = (fst (m w), w')
             /\ get_status (data_store w') !! ACTIVE = Some (VBool false).
Proof.
  unfold try_finally. destruct (m w) as [o w1].
  destruct (clear_active_clears w1) as [-> Hflag].
  eexists. split; [reflexivity | exact Hflag].
Qed.

Lemma try_except_sequence_failed (config : SystemConfig) (m : M unit) (w : World) :
  exists w', try_except m (sequence_failed config) w = (Returned tt, w').
Proof.
  unfold try_except. destruct (m w) as [[[] | e] w1].
  - eexists. reflexivity.
  - apply sequence_failed_returns.
Qed.

(** X25. The sequence task always returns, and its
    [finally] clause leaves [snoring_response_active] false: this holds for
    [_execute_snoring_response] in every world, and for any body put under
    that clause, raising or not.  On an initialised controller whose writes
    do not fail, whatever the stop event does during the holds and the
    interval, channel 1 is OFF when the task exits, and channel 2 is OFF
    when the task exits provided it was OFF when the task began. *)
Theorem sequence_exit (config : SystemConfig) (w : World) :
  (answer (_execute_snoring_response config) w = Returned tt
   /\ get_status (data_store (run (_execute_snoring_response config) w)) !! ACTIVE
      = Some (VBool false))
  /\ (forall body : M unit,
        get_status (data_store (run (try_finally body clear_active) w)) !! ACTIVE
        = Some (VBool false))
  /\ (gpio_initialized w = true -> gpio_faults w = [] ->
      channel_off config (run (_execute_snoring_response config) w) 1 = true
      /\ (channel_off config w 2 = true ->
          channel_off config (run (_execute_snoring_response config) w) 2 = true)).
Proof.
  split; [| split].
  - unfold answer, run, _execute_snoring_response.
    destruct (try_finally_clear_active
                (try_except (mark_active;; sequence_stages config)%M (sequence_failed config)) w)
      as (w' & -> & Hflag).
    destruct (try_except_sequence_failed config (mark_active;; sequence_stages config)%M w)
      as [w1 ->].
    split; [reflexivity | exact Hflag].
  - intros body. unfold run.
    destruct (try_finally_clear_active body w) as (w' & -> & Hflag). exact Hflag.
  - intros Hinit Hfaults.
    assert (Hrun : returns (lines_are (line_level w)) (_execute_snoring_response config)
              (fun _ w' =>
                 lines_are (lines_off config 1 (lines_on config 1 (line_level w))) w'
                 \/ lines_are (lines_off config 2 (lines_on config 2
                      (lines_off config 1 (lines_on config 1 (line_level w))))) w')).
    { unfold _execute_snoring_response.
      eapply returns_try_finally.
      - apply returns_try_except.
        eapply returns_bind; [apply lines_are_status_update |].
        intros ?. apply sequence_stages_lines.
      - intros ?. cbv beta. intros w1 [Hw1 | Hw1];
          destruct (lines_are_status_update _ {[ ACTIVE := VBool false ]} w1 Hw1)
            as (u & w2 & E & Hw2); exists u, w2; (split; [exact E | auto]). }
    destruct (Hrun w) as (u & w' & E & Hexit); [repeat split; assumption |].
    unfold run. rewrite E. cbn [snd].
    rewrite !channel_off_levels. unfold level.
    destruct Hexit as [(_ & _ & ->) | (_ & _ & ->)];
      rewrite ?level_after_cycle;
      repeat case_decide; intuition congruence.
Qed.

Lemma sequence_exit_witness :
  channel_off default_config
    (run (_execute_snoring_response default_config) cancelled_world) 1 = true
  /\ channel_off default_config
    (run (_execute_snoring_response default_config) cancelled_world) 2 = true.
Proof.
  destruct (proj2 (proj2 (sequence_exit default_config cancelled_world)) eq_refl eq_refl)
    as [H1 H2].
  split; [exact H1 | apply H2; reflexivity].
Defined.

(** A cancellation switches off the channel of the running stage only:
    with channel 2 already engaged by hand, a cancellation seen at the first
    poll of the first hold switches channel 1 off and exits; no line of
    channel 2 is written and channel 2 is still ON at the exit. *)
Lemma cancelled_sequence_leaves_channel_2_on :
  channel_off default_config manual_channel_2_world 2 = false
  /\ gpio_writes (effects
       (run (_execute_snoring_response default_config) manual_channel_2_world))
     = gpio_writes (effects manual_channel_2_world)
       ++ [GpioWrite 23 1; GpioWrite 17 1; GpioWrite 17 0; GpioWrite 23 0]
  /\ channel_off default_config
       (run (_execute_snoring_response default_config) manual_channel_2_world) 2 = false.
Proof. vm_compute. repeat split. Qed.

(** A stage that fails is left as it is: when the pump write of stage 1
    raises, [control_pump] answers failure after the valve was opened, the
    sequence logs the failure and returns, and valve 1 stays open. *)
Lemma failed_stage_leaves_valve_open :
  gpio_writes (effects (run (_execute_snoring_response default_config) faulty_world))
  = [GpioWrite 23 1]
  /\ channel_off default_config
       (run (_execute_snoring_response default_config) faulty_world) 1 = false
  /\ get_status (data_store (run (_execute_snoring_response default_config) faulty_world))
       !! ACTIVE = Some (VBool false).
Proof. vm_compute. repeat split. Qed.

(** C2 fails on the code.  When the first stage fails after its valve
    was opened (the valve write succeeds, the pump write raises, and
    [control_pump] answers the failure), the sequence logs "Step 1 failed"
    and returns: the only line written is valve 1, raised to 1; no line is
    lowered, so channel 1 is not OFF when the task exits.  The [finally]
    clause still clears the flag.  The [except] clause, which switches both
    channels off, is not reached: [control_pump] reports the failure in its
    answer instead of raising. *)
Theorem stage_failure_leaves_valve_open
    (config : SystemConfig) (w : World) (e : string) (rest : list (option string)) :
  gpio_initialized w = true ->
  gpio_faults w = None :: Some e :: rest ->
  answer (_execute_snoring_response config) w = Returned tt
  /\ effects (run (_execute_snoring_response config) w)
     = effects w ++ [Acquire GpioLock; GpioWrite (SOLENOID_VALVE_PIN_1 config) 1;
                     Sleep 100; Release GpioLock]
  /\ line_level (run (_execute_snoring_response config) w)
     = <[SOLENOID_VALVE_PIN_1 config := 1]> (line_level w)
  /\ channel_off config (run (_execute_snoring_response config) w) 1 = false
  /\ get_status (data_store (run (_execute_snoring_response config) w)) !! ACTIVE
     = Some (VBool false).
Proof.
  intros Hinit Hfaults.
  assert (Hflag : get_status (data_store (run (_execute_snoring_response config) w))
                    !! ACTIVE = Some (VBool false)).
  { unfold run, _execute_snoring_response.
    destruct (try_finally_clear_active
                (try_except (mark_active;; sequence_stages config)%M (sequence_failed config)) w)
      as (w' & -> & Hclear). exact Hclear. }
  assert (Hrun : exists w',
            _execute_snoring_response config w = (Returned tt, w')
            /\ effects w'
               = (((effects w ++ [Acquire GpioLock])
                   ++ [GpioWrite (SOLENOID_VALVE_PIN_1 config) 1])
                  ++ [Sleep 100]) ++ [Release GpioLock]
            /\ line_level w' = <[SOLENOID_VALVE_PIN_1 config := 1]> (line_level w)).
  { clear Hflag. destruct w as [ds init lines effs faults stop intf thr js].
    cbn in Hinit, Hfaults. subst init faults.
    eexists. split; [reflexivity |]. split; reflexivity. }
  destruct Hrun as (w' & Hrun & Heffects & Hlines).
  unfold answer, run in *. rewrite Hrun in *. cbn [fst snd] in *.
  rewrite <- !app_assoc in Heffects. cbn [app] in Heffects.
  split; [reflexivity |].
  repeat split; try assumption.
  unfold channel_off, level. rewrite Hlines, lookup_insert_eq. cbn [default].
  change (1 =? 1) with true. cbv iota. apply andb_false_r.
Qed.

Lemma stage_failure_leaves_valve_open_witness :
  channel_off default_config faulty_world 1 = true
  /\ answer (_execute_snoring_response default_config) faulty_world = Returned tt
  /\ gpio_writes (effects (run (_execute_snoring_response default_config) faulty_world))
     = [GpioWrite 23 1]
  /\ channel_off default_config
       (run (_execute_snoring_response default_config) faulty_world) 1 = false.
Proof.
  destruct (stage_failure_leaves_valve_open default_config faulty_world
              "GPIO write failed" [] eq_refl eq_refl)
    as (Hanswer & Heffects & _ & Hchannel & _).
  split; [reflexivity |]. split; [exact Hanswer |]. split; [| exact Hchannel].
  rewrite Heffects. reflexivity.
Defined.

(** ** Detections side by side *)

(** Running the first statement of the sequence and then the rest is
    running the sequence. *)
Lemma sequence_after_mark_runs (config : SystemConfig) (w : World) :
  sequence_after_mark config (run mark_active w) = _execute_snoring_response config w.
Proof. reflexivity. Qed.

(** A detection that reads the status after a sequence has marked itself
    active is skipped: no second sequence is started. *)
Lemma later_detection_skipped :
  let c := Interleaving.exec default_config [0; 0; 2; 1; 1]%nat two_detections in
  Interleaving.threads c
  = [Interleaving.DetDone; Interleaving.DetDone; Interleaving.SeqRunning]
  /\ started_sequences (Interleaving.world c) = 1%nat.
Proof. vm_compute. split; reflexivity. Qed.

(** C1 fails on the code.  The flag is read by [get_status] in the
    detection thread and set by [update_status] in the sequence thread, two
    separate store calls.  When two qualifying detections both read the
    status before either sequence thread has run its first statement (the
    schedule: thread 0 reads, thread 1 reads, thread 0 starts sequence 2,
    thread 1 starts sequence 3, both sequences mark themselves), two
    sequence threads are started and are active at the same time; run to
    their end, they have engaged channel 1 twice. *)
Theorem concurrent_detections_start_two_sequences :
  let c := Interleaving.exec default_config [0; 1; 0; 1; 2; 3]%nat two_detections in
  Interleaving.threads c
  = [Interleaving.DetDone; Interleaving.DetDone;
     Interleaving.SeqRunning; Interleaving.SeqRunning]
  /\ Interleaving.active_sequences c = 2%nat
  /\ started_sequences (Interleaving.world c) = 2%nat
  /\ gpio_writes (effects (Interleaving.world
                             (Interleaving.exec default_config [2; 3]%nat c)))
     = [GpioWrite 23 1; GpioWrite 17 1; GpioWrite 17 0; GpioWrite 23 0;
        GpioWrite 24 1; GpioWrite 27 1; GpioWrite 27 0; GpioWrite 24 0;
        GpioWrite 23 1; GpioWrite 17 1; GpioWrite 17 0; GpioWrite 23 0;
        GpioWrite 24 1; GpioWrite 27 1; GpioWrite 27 0; GpioWrite 24 0].
Proof. vm_compute. repeat split. Qed.

(** * Further properties *)

(** ** The store *)

Lemma fold_append_bounded {A} (cap : nat) (xs : list A) :
  (0 < cap)%nat ->
  fold_left (append_bounded (Z.of_nat cap)) xs [] = drop (length xs - cap) xs.
Proof.
  intros Hcap. induction xs as [| x xs IH] using rev_ind; [reflexivity |].
  rewrite fold_left_app. cbn [fold_left]. rewrite IH.
  rewrite append_bounded_drop by (rewrite length_drop; lia).
  rewrite !length_app, length_drop. cbn [length].
  destruct (le_lt_dec (length xs) cap) as [Hle | Hgt].
  - replace (length xs - cap)%nat with 0%nat by lia. cbn [drop]. f_equal. lia.
  - replace (length xs - (length xs - cap) + 1 - cap)%nat with 1%nat by lia.
    rewrite (drop_app_le xs) by lia.
    rewrite drop_app_le by (rewrite length_drop; lia).
    rewrite drop_drop. do 2 f_equal. lia.
Qed.

Lemma log_all_log (ms : list msg) (d : ThreadSafeData) :
  get_activity_log (log_all ms d)
  = fold_left (append_bounded 200) ms (get_activity_log d)
  /\ _detection_history (log_all ms d) = _detection_history d
  /\ _system_status (log_all ms d) = _system_status d.
Proof.
  revert d. induction ms as [| m ms IH]; intros d; [repeat split |].
  cbn [log_all fold_left]. destruct (IH (add_log_entry m d)) as (Hlog & Hhist & Hstat).
  unfold log_all in *. rewrite Hlog, Hhist, Hstat. repeat split.
Qed.

(** X1. The activity log is a FIFO buffer of capacity 200: from the empty
    store it holds the last 200 messages logged, in order; a log of at
    most 200 entries stays so after any entry; logging never touches the
    detection history or the status. *)
Theorem activity_log_fifo :
  (forall ms : list msg,
      get_activity_log (log_all ms ThreadSafeData_init) = drop (length ms - 200) ms)
  /\ (forall (d : ThreadSafeData) (m : msg),
        (length (get_activity_log d) <= 200)%nat ->
        (length (get_activity_log (add_log_entry m d)) <= 200)%nat)
  /\ (forall (ms : list msg) (d : ThreadSafeData),
        get_detection_history (log_all ms d) = get_detection_history d
        /\ get_status (log_all ms d) = get_status d).
Proof.
  split; [| split].
  - intros ms. destruct (log_all_log ms ThreadSafeData_init) as (-> & _).
    change 200 with (Z.of_nat 200). apply fold_append_bounded. lia.
  - intros d m Hlen. apply (append_bounded_length 200). exact Hlen.
  - intros ms d. destruct (log_all_log ms d) as (_ & Hhist & Hstat).
    split; assumption.
Qed.

Lemma activity_log_fifo_witness :
  (length (get_activity_log
             (add_log_entry [Str "one more"]
                (log_all (replicate 200 [Str "tick"]) ThreadSafeData_init))) <= 200)%nat.
Proof.
  apply (proj1 (proj2 activity_log_fifo)).
  rewrite (proj1 activity_log_fifo). rewrite length_drop, length_replicate. lia.
Defined.

(** X2. [update_status] merges: a key it is given reads back with the new
    value, every other key keeps its value, no key is ever removed, and two
    updates in a row are one update in which the later values win.  The
    history and the log are not touched. *)
Theorem update_status_merges (kwargs later : gmap string value) (d : ThreadSafeData) :
  (forall key : string,
      get_status (update_status kwargs d) !! key
      = match kwargs !! key with
        | Some v => Some v
        | None => get_status d !! key
        end)
  /\ dom (get_status (update_status kwargs d)) = dom kwargs ∪ dom (get_status d)
  /\ update_status later (update_status kwargs d) = update_status (later ∪ kwargs) d
  /\ get_detection_history (update_status kwargs d) = get_detection_history d
  /\ get_activity_log (update_status kwargs d) = get_activity_log d.
Proof.
  unfold get_status, update_status, get_detection_history, get_activity_log. cbn.
  repeat split.
  - intros key. rewrite lookup_union. destruct (kwargs !! key), (_system_status d !! key);
      reflexivity.
  - apply dom_union_L.
  - f_equal. apply (assoc_L (∪)).
Qed.

(** ** The controller, further *)

(** X3. [control_valve] always returns.  On an initialised controller, for
    valve 1 or 2 and a write that does not fail, it writes exactly one
    line under the controller lock, the valve's, at 1 for ON and at 0 for
    any other action, and no pump line.  Without initialisation or with
    another valve number it answers failure and the lines are untouched;
    when the write raises, the answer is a failure carrying the
    exception's text and the lines are untouched as well. *)
Theorem control_valve_single_write
    (config : SystemConfig) (w : World) (n : Z) (action : string) :
  (exists r, answer (control_valve config n action) w = Returned r)
  /\ (gpio_initialized w = true -> n = 1 \/ n = 2 -> writes_succeed 1 w = true ->
      let lvl := if String.eqb (upper action) "ON" then 1 else 0 in
      succeeded (answer (control_valve config n action) w) = true
      /\ effects (run (control_valve config n action) w)
         = effects w ++ [Acquire GpioLock; GpioWrite (valve_pin_of config n) lvl;
                         Release GpioLock]
      /\ line_level (run (control_valve config n action) w)
         = <[valve_pin_of config n := lvl]> (line_level w))
  /\ (gpio_initialized w = false \/ (n <> 1 /\ n <> 2) ->
      succeeded (answer (control_valve config n action) w) = false
      /\ line_level (run (control_valve config n action) w) = line_level w
      /\ gpio_writes (effects (run (control_valve config n action) w))
         = gpio_writes (effects w))
  /\ (forall e rest,
        gpio_initialized w = true -> n = 1 \/ n = 2 -> gpio_faults w = Some e :: rest ->
        answer (control_valve config n action) w
          = Returned {| success := false; message := [Str e] |}
        /\ line_level (run (control_valve config n action) w) = line_level w).
Proof.
  destruct w as [ds init lines effs faults stop intf thr js].
  unfold writes_succeed, valve_pin_of. cbn [gpio_initialized gpio_faults].
  split; [| split; [| split]].
  - destruct init; run_call; [| eexists; reflexivity].
    destruct (n =? 1); [| destruct (n =? 2)]; cbn; try (eexists; reflexivity);
      destruct (String.eqb (upper action) "ON");
      destruct faults as [| [?|] ?]; cbn; eexists; reflexivity.
  - intros -> Hn Hok. destruct Hn as [-> | ->]; run_call;
      destruct (String.eqb (upper action) "ON");
      destruct faults as [| [?|] ?]; cbn in *; try discriminate;
      rewrite <- ?app_assoc; repeat split.
  - intros [-> | [H1 H2]].
    + run_call. repeat split.
    + apply Z.eqb_neq in H1, H2. destruct init; run_call; rewrite ?H1, ?H2; cbn;
        repeat split.
      rewrite <- app_assoc, gpio_writes_app. cbn. apply app_nil_r.
  - intros e rest -> Hn ->. destruct Hn as [-> | ->]; run_call;
      destruct (String.eqb (upper action) "ON"); cbn; split; reflexivity.
Qed.

Lemma control_valve_single_write_witness :
  effects (run (control_valve default_config 2 "ON") idle_world)
  = [Acquire GpioLock; GpioWrite 24 1; Release GpioLock]
  /\ succeeded (answer (control_valve default_config 5 "ON") idle_world) = false
  /\ answer (control_valve default_config 1 "OFF") faulty_valve_world
     = Returned {| success := false; message := [Str "GPIO write failed"] |}.
Proof.
  split; [| split].
  - apply (proj1 (proj2 (control_valve_single_write default_config idle_world 2 "ON")));
      [reflexivity | right; reflexivity | reflexivity].
  - apply (proj1 (proj2 (proj2 (control_valve_single_write default_config idle_world 5 "ON")))).
    right. split; discriminate.
  - apply (proj2 (proj2 (proj2 (control_valve_single_write
                                  default_config faulty_valve_world 1 "OFF")))
             "GPIO write failed" []); [reflexivity | left; reflexivity | reflexivity].
Defined.

Lemma level_lines_on (config : SystemConfig) (c q : Z) (L : gmap Z Z) :
  default 0 (lines_on config c L !! q)
  = if decide (q = valve_pin_of config c \/ q = pump_pin_of config c) then 1
    else default 0 (L !! q).
Proof.
  unfold lines_on. rewrite !lookup_insert.
  repeat case_decide; subst; try reflexivity; exfalso; intuition congruence.
Qed.

(** X4. On sound hardware, switching a channel ON raises its two lines and
    leaves every other line alone; switching it OFF again brings the
    channel back to OFF, again without touching any other line. *)
Theorem control_pump_on_off_round_trip (config : SystemConfig) (w : World) (c : Z) :
  gpio_initialized w = true -> gpio_faults w = [] -> c = 1 \/ c = 2 ->
  let w1 := run (control_pump config c "ON") w in
  let w2 := run (control_pump config c "OFF") w1 in
  (level w1 (pump_pin_of config c) = 1 /\ level w1 (valve_pin_of config c) = 1)
  /\ channel_off config w2 c = true
  /\ (forall q, q <> pump_pin_of config c -> q <> valve_pin_of config c ->
        level w1 q = level w q /\ level w2 q = level w q).
Proof.
  intros Hinit Hfaults Hc.
  destruct (lines_are_control_pump_on config (line_level w) c Hc w)
    as (r1 & w1 & E1 & _ & Hw1); [repeat split; assumption |].
  destruct (lines_are_control_pump_off config _ c Hc w1 Hw1) as (r2 & w2 & E2 & _ & Hw2).
  unfold run. rewrite E1. cbn [snd]. rewrite E2. cbn [snd].
  destruct Hw1 as (_ & _ & L1). destruct Hw2 as (_ & _ & L2).
  rewrite channel_off_levels. unfold level. rewrite L1, L2.
  repeat split; intros; rewrite ?level_after_cycle, ?level_lines_on;
    repeat case_decide; try reflexivity; exfalso; intuition congruence.
Qed.

Lemma control_pump_on_off_round_trip_witness :
  channel_off default_config
    (run (control_pump default_config 2 "OFF")
         (run (control_pump default_config 2 "ON") idle_world)) 2 = true.
Proof.
  apply (control_pump_on_off_round_trip default_config idle_world 2);
    [reflexivity | reflexivity | right; reflexivity].
Defined.

Lemma upper_ascii_O (c : ascii) :
  upper_ascii c = "O"%char -> c = "O"%char \/ c = "o"%char.
Proof.
  destruct c as [[] [] [] [] [] [] [] []]; vm_compute; intros H;
    try discriminate H; auto.
Qed.

Lemma upper_ascii_N (c : ascii) :
  upper_ascii c = "N"%char -> c = "N"%char \/ c = "n"%char.
Proof.
  destruct c as [[] [] [] [] [] [] [] []]; vm_compute; intros H;
    try discriminate H; auto.
Qed.

(** X5. The action of [control_pump] is read without regard to case, and
    everything that is not a spelling of ON counts as OFF: the call then
    changes the world exactly as the action "OFF" does, with the same
    success.  (The answer's message alone repeats the action given.) *)
Theorem control_pump_action_spelling
    (config : SystemConfig) (w : World) (c : Z) (action : string) :
  (String.eqb (upper action) "ON" = true <-> In action ["ON"; "On"; "oN"; "on"])
  /\ (String.eqb (upper action) "ON" = true ->
      run (control_pump config c action) w = run (control_pump config c "ON") w
      /\ succeeded (answer (control_pump config c action) w)
         = succeeded (answer (control_pump config c "ON") w))
  /\ (String.eqb (upper action) "ON" = false ->
      run (control_pump config c action) w = run (control_pump config c "OFF") w
      /\ succeeded (answer (control_pump config c action) w)
         = succeeded (answer (control_pump config c "OFF") w)).
Proof.
  split; [| split].
  - split.
    + intros H. apply String.eqb_eq in H.
      destruct action as [| c1 [| c2 [| c3 rest]]]; try discriminate H.
      cbn in H. injection H as H1 H2.
      apply upper_ascii_O in H1. apply upper_ascii_N in H2.
      destruct H1 as [-> | ->], H2 as [-> | ->]; cbn; auto.
    + intros [<- | [<- | [<- | [<- | []]]]]; reflexivity.
  - intros Hon. destruct w as [ds init lines effs faults stop intf thr js].
    run_call. rewrite Hon.
    destruct init; cbn; [| split; reflexivity].
    destruct (c =? 1); [| destruct (c =? 2)]; cbn; try (split; reflexivity);
      split_faults faults; split; reflexivity.
  - intros Hoff. destruct w as [ds init lines effs faults stop intf thr js].
    run_call. rewrite Hoff.
    destruct init; cbn; [| split; reflexivity].
    destruct (c =? 1); [| destruct (c =? 2)]; cbn; try (split; reflexivity);
      split_faults faults; split; reflexivity.
Qed.

Lemma control_pump_action_spelling_witness :
  run (control_pump default_config 1 "on") idle_world
  = run (control_pump default_config 1 "ON") idle_world
  /\ run (control_pump default_config 1 "toggle") idle_world
  = run (control_pump default_config 1 "OFF") idle_world.
Proof.
  split.
  - apply (proj1 (proj2 (control_pump_action_spelling default_config idle_world 1 "on"))).
    reflexivity.
  - apply (proj2 (proj2 (control_pump_action_spelling default_config idle_world 1 "toggle"))).
    reflexivity.
Defined.

(** ** Capture and the detection cycle, further *)

Ltac run_audio :=
  unfold record_audio, with_lock, try_finally, try_except, bind, gets, ret, raise,
    modify, log, sleep, status_update, answer, run; cbn.

(** X6. [record_audio] holds the recording lock and the [is_recording] flag for
    the length of the call and gives both back on every way out: whatever
    the microphone does, the flag is false afterwards with every other
    status field as before, the lock is released, and no GPIO line is
    touched.  It answers the path of the file when frames were captured,
    and raises "Recording failed" with the cause otherwise; the clip's
    duration is slept unless the device could not be opened. *)
Theorem record_audio_scoped (config : SystemConfig) (c : capture) (w : World) :
  get_status (data_store (run (record_audio config c) w))
    = <["is_recording" := VBool false]> (get_status (data_store w))
  /\ effects (run (record_audio config c) w)
     = effects w ++ [Acquire RecordingLock]
       ++ match c with
          | DeviceError _ => []
          | _ => [Sleep (AUDIO_DURATION config * 1000)]
          end
       ++ [Release RecordingLock]
  /\ line_level (run (record_audio config c) w) = line_level w
  /\ answer (record_audio config c) w
     = match c with
       | Captured filename _ => Returned (path_join (STATIC_FOLDER config) filename)
       | NoFrames => Raised "❌ Recording failed: No audio data recorded"
       | DeviceError e => Raised ("❌ Recording failed: " ++ e)
       end.
Proof.
  destruct w as [ds init lines effs faults stop intf thr js].
  assert (Hstatus : forall S : gmap string value,
             {[ "is_recording" := VBool false ]} ∪ ({[ "is_recording" := VBool true ]} ∪ S)
             = <["is_recording" := VBool false]> S).
  { intros S. rewrite <- !insert_union_singleton_l. apply insert_insert_eq. }
  destruct c; run_audio; unfold get_status; cbn; rewrite Hstatus, <- ?app_assoc;
    repeat split.
Qed.

Ltac cycle_cases env :=
  destruct env as [[filename samples | | e] [|] size [r | | e'] ts removed];
  run_cycle; rewrite ?path_join_nonempty; cbn;
  try (destruct (is_snoring r); cbn;
       [destruct (confidence_above_threshold _ r); cbn;
        [match goal with
         | |- context [get_flag ?s ACTIVE] => destruct (get_flag s ACTIVE); cbn
         end |] |]);
  rewrite ?cleanup_old_files_runs; cbn.

(** A detection cycle never raises; what it answers, and that it leaves
    the stop event alone. *)
Lemma record_and_predict_returns (config : SystemConfig) (env : DetectionEnv) (w : World) :
  exists w', record_and_predict config env w = (Returned (cycle_result env), w')
             /\ stop_event w' = stop_event w /\ interference w' = interference w
             /\ effects w' = effects (run (record_and_predict config env) w).
Proof.
  destruct w as [ds init lines effs faults stop intf thr js].
  cycle_cases env; eexists; repeat split.
Qed.

Lemma gpio_writes_snoc (es : list effect) (e : effect) :
  gpio_writes (es ++ [e]) = gpio_writes es ++ (if is_gpio_write e then [e] else []).
Proof. rewrite gpio_writes_app. f_equal. destruct e; reflexivity. Qed.

Lemma cleanup_fold_frame (removed : list string) (d : ThreadSafeData) :
  _system_status
    (fold_left (fun d f => add_log_entry [Str "🗑️ Cleaned up: "; Str f] d) removed d)
  = _system_status d
  /\ _detection_history
    (fold_left (fun d f => add_log_entry [Str "🗑️ Cleaned up: "; Str f] d) removed d)
  = _detection_history d.
Proof.
  revert d. induction removed as [| f rest IH]; intros d; [split; reflexivity |].
  cbn [fold_left]. destruct (IH (add_log_entry [Str "🗑️ Cleaned up: "; Str f] d)) as [-> ->].
  split; reflexivity.
Qed.

(** X7. A detection cycle never raises and never writes a GPIO line.  It
    answers the classification when the capture succeeded, the file exists
    and the classifier answered, and [None] otherwise.  In the first case
    the detection history receives exactly one record, with that result; in
    the second the history is unchanged and no sequence is started.  The
    recording flag is false when the cycle ends. *)
Theorem record_and_predict_frame
    (config : SystemConfig) (env : DetectionEnv) (w : World) :
  answer (record_and_predict config env) w = Returned (cycle_result env)
  /\ line_level (run (record_and_predict config env) w) = line_level w
  /\ gpio_writes (effects (run (record_and_predict config env) w))
     = gpio_writes (effects w)
  /\ get_status (data_store (run (record_and_predict config env) w)) !! "is_recording"
     = Some (VBool false)
  /\ get_detection_history (data_store (run (record_and_predict config env) w))
     = match cycle_result env with
       | Some r =>
           append_bounded 50 (get_detection_history (data_store w))
             {| timestamp := timestamp_str env; entry_result := r;
                audio_file := basename (capture_result env) |}
       | None => get_detection_history (data_store w)
       end
  /\ (cycle_result env = None ->
      started_sequences (run (record_and_predict config env) w) = started_sequences w).
Proof.
  destruct w as [ds init lines effs faults stop intf thr js].
  cycle_cases env; unfold get_status, get_detection_history, started_sequences; cbn;
    repeat split; try discriminate;
    rewrite ?gpio_writes_snoc, ?started_sequences_snoc; cbn; rewrite ?app_nil_r;
    rewrite ?(proj1 (cleanup_fold_frame _ _)), ?(proj2 (cleanup_fold_frame _ _)); cbn;
    try reflexivity; try lia;
    rewrite <- !insert_union_singleton_l; apply lookup_insert_eq.
Qed.

Lemma record_and_predict_frame_witness :
  started_sequences (run (record_and_predict default_config silent_env) idle_world)
  = started_sequences idle_world.
Proof.
  apply (proj2 (proj2 (proj2 (proj2 (proj2
           (record_and_predict_frame default_config silent_env idle_world)))))).
  reflexivity.
Defined.

(** ** The actuation sequence, step by step *)

Lemma settled_log E L s I (message : msg) :
  returns (settled E L s I) (log message) (fun _ => settled E L s I).
Proof. intros w HP. exists tt, (set_data_store (add_log_entry message) w). split; auto. Qed.

Lemma settled_status_update E L s I (kwargs : gmap string value) :
  returns (settled E L s I) (status_update kwargs) (fun _ => settled E L s I).
Proof. intros w HP. exists tt, (set_data_store (update_status kwargs) w). split; auto. Qed.

Lemma settled_sleep E L s I (ms : Z) :
  returns (settled E L s I) (sleep ms) (fun _ => settled (E ++ [Sleep ms]) L s I).
Proof.
  intros w (H1 & H2 & H3 & H4 & H5 & H6). exists tt, (emit (Sleep ms) w).
  split; [reflexivity |]. repeat split; cbn; congruence.
Qed.

(** A poll of the stop event when no other thread interferes any more. *)
Lemma settled_is_set_quiet E L s :
  returns (settled E L s []) is_set (fun b w => b = s /\ settled E L s [] w).
Proof.
  intros w (H1 & H2 & H3 & H4 & H5 & H6). unfold is_set. rewrite H6.
  exists (stop_event w), w. repeat split; assumption.
Qed.

(** A poll before which another thread does [change] to the stop event. *)
Lemma settled_is_set_next E L s (change : option bool) I :
  returns (settled E L s (change :: I)) is_set
          (fun b w => b = default s change /\ settled E L (default s change) I w).
Proof.
  intros w (H1 & H2 & H3 & H4 & H5 & H6). unfold is_set. rewrite H6.
  destruct change as [b |]; eexists _, _; (split; [reflexivity |]); cbn;
    repeat split; cbn; congruence.
Qed.

Lemma settled_is_set_unchanged E L s I :
  returns (settled E L s (None :: I)) is_set (fun b w => b = s /\ settled E L s I w).
Proof. apply (settled_is_set_next E L s None I). Qed.

Lemma settled_is_set_changed E L s (b' : bool) I :
  returns (settled E L s (Some b' :: I)) is_set (fun b w => b = b' /\ settled E L b' I w).
Proof. apply (settled_is_set_next E L s (Some b') I). Qed.

Lemma settled_control_pump_on (config : SystemConfig) E L s I (c : Z) :
  c = 1 \/ c = 2 ->
  returns (settled E L s I) (control_pump config c "ON")
          (fun r w => success r = true
                      /\ settled (E ++ switch_on config c) (lines_on config c L) s I w).
Proof.
  intros Hc w (H1 & H2 & H3 & H4 & H5 & H6).
  destruct w as [ds init lines effs faults stop intf thr js]. cbn in *. subst.
  destruct Hc as [-> | ->]; eexists _, _; (split; [reflexivity |]);
    unfold settled, switch_on, switch_off, valve_pin_of, pump_pin_of; cbn;
    rewrite <- ?app_assoc; repeat split.
Qed.

Lemma settled_control_pump_off (config : SystemConfig) E L s I (c : Z) :
  c = 1 \/ c = 2 ->
  returns (settled E L s I) (control_pump config c "OFF")
          (fun r w => success r = true
                      /\ settled (E ++ switch_off config c) (lines_off config c L) s I w).
Proof.
  intros Hc w (H1 & H2 & H3 & H4 & H5 & H6).
  destruct w as [ds init lines effs faults stop intf thr js]. cbn in *. subst.
  destruct Hc as [-> | ->]; eexists _, _; (split; [reflexivity |]);
    unfold settled, switch_on, switch_off, valve_pin_of, pump_pin_of; cbn;
    rewrite <- ?app_assoc; repeat split.
Qed.

(** What a hold does when it is interrupted: a log line and the OFF call. *)
Lemma settled_interrupted (config : SystemConfig) E L s I (c : Z) (note : msg) :
  c = 1 \/ c = 2 ->
  returns (settled E L s I)
          (log note ;; control_pump config c "OFF" ;; ret tt)%M
          (fun _ => settled (E ++ switch_off config c) (lines_off config c L) s I).
Proof.
  intros Hc.
  eapply returns_bind; [apply settled_log |]. intros ?; cbv beta.
  eapply returns_bind; [apply (settled_control_pump_off config E L s I c Hc) |].
  intros r. apply returns_ret. intros w [_ Hw]. exact Hw.
Qed.

(** A hold that nothing interrupts lasts its [n] seconds. *)
Lemma settled_hold_through (config : SystemConfig) (c : Z) (note : msg) (n : nat) E L :
  returns (settled E L false [])
          (hold n (log note ;; control_pump config c "OFF" ;; ret tt)%M)
          (fun b w => b = false
                      /\ settled (E ++ replicate n (Sleep 1000)) L false [] w).
Proof.
  revert E. induction n as [| n IH]; intros E; cbn [hold replicate].
  - apply returns_ret. intros w Hw. rewrite app_nil_r. auto.
  - eapply returns_bind; [apply settled_is_set_quiet |].
    intros b w [-> Hw]. revert w Hw.
    eapply returns_bind; [apply settled_sleep |]. intros ?; cbv beta.
    eapply returns_weaken; [apply IH |].
    intros b w [-> Hw]. split; [reflexivity |].
    rewrite <- app_assoc in Hw. exact Hw.
Qed.

(** A hold during which the stop event is found set at poll [k] (counting
    from 0) has slept [k] seconds, and switches its channel off. *)
Lemma settled_hold_cancelled (config : SystemConfig) (c : Z) (note : msg)
      (k n : nat) E L (I : list (option bool)) :
  c = 1 \/ c = 2 -> (k < n)%nat ->
  returns (settled E L false (replicate k None ++ Some true :: I))
          (hold n (log note ;; control_pump config c "OFF" ;; ret tt)%M)
          (fun b w => b = true
                      /\ settled (E ++ replicate k (Sleep 1000) ++ switch_off config c)
                                 (lines_off config c L) true I w).
Proof.
  intros Hc. revert n E. induction k as [| k IH]; intros n E Hk;
    (destruct n as [| n]; [lia |]); cbn [hold replicate app].
  - eapply returns_bind; [apply settled_is_set_changed |].
    intros b w [-> Hw]. revert w Hw.
    eapply returns_bind; [apply (settled_interrupted config E L true I c note Hc) |].
    intros ?. apply returns_ret. auto.
  - eapply returns_bind; [apply settled_is_set_unchanged |].
    intros b w [-> Hw]. revert w Hw.
    eapply returns_bind; [apply settled_sleep |]. intros ?; cbv beta.
    eapply returns_weaken; [apply (IH n); lia |].
    intros b w [-> Hw]. split; [reflexivity |].
    rewrite <- app_assoc in Hw. exact Hw.
Qed.

(** A hold that finds the stop event already set stops at once. *)
Lemma settled_hold_stopped (config : SystemConfig) (c : Z) (note : msg) (n : nat) E L :
  c = 1 \/ c = 2 -> (0 < n)%nat ->
  returns (settled E L true [])
          (hold n (log note ;; control_pump config c "OFF" ;; ret tt)%M)
          (fun b w => b = true
                      /\ settled (E ++ switch_off config c) (lines_off config c L) true [] w).
Proof.
  intros Hc Hn. destruct n as [| n]; [lia |]. cbn [hold].
  eapply returns_bind; [apply settled_is_set_quiet |].
  intros b w [-> Hw]. revert w Hw.
  eapply returns_bind; [apply (settled_interrupted config E L true [] c note Hc) |].
  intros ?. apply returns_ret. auto.
Qed.

Lemma settled_wait_between_through (total : Z) (n : nat) (i : Z) E L :
  returns (settled E L false []) (wait_between total i n)
          (fun b w => b = false
                      /\ settled (E ++ replicate n (Sleep 1000)) L false [] w).
Proof.
  revert i E. induction n as [| n IH]; intros i E; cbn [wait_between replicate].
  - apply returns_ret. intros w Hw. rewrite app_nil_r. auto.
  - eapply returns_bind; [apply settled_is_set_quiet |].
    intros b w [-> Hw]. revert w Hw.
    eapply returns_bind; [apply settled_sleep |]. intros ?; cbv beta.
    eapply returns_bind;
      [destruct ((i + 1) mod 60 =? 0);
       [apply settled_log | apply returns_ret; intros w Hw; exact Hw] |].
    intros ?; cbv beta.
    eapply returns_weaken; [apply IH |].
    intros b w [-> Hw]. split; [reflexivity |].
    rewrite <- app_assoc in Hw. exact Hw.
Qed.

Lemma settled_execute (config : SystemConfig) E L s I E' L' s' I' :
  returns (settled E L s I) (sequence_stages config) (fun _ => settled E' L' s' I') ->
  returns (settled E L s I) (_execute_snoring_response config)
          (fun _ => settled E' L' s' I').
Proof.
  intros Hstages. unfold _execute_snoring_response.
  eapply returns_try_finally.
  - apply returns_try_except.
    eapply returns_bind; [apply settled_status_update |]. intros ?. exact Hstages.
  - intros ?. cbv beta. apply settled_status_update.
Qed.

Lemma settled_start (w : World) :
  gpio_initialized w = true -> gpio_faults w = [] ->
  settled (effects w) (line_level w) (stop_event w) (interference w) w.
Proof. intros H1 H2. repeat split; assumption. Qed.

Lemma sequence_stages_through (config : SystemConfig) E L :
  returns (settled E L false []) (sequence_stages config)
    (fun _ =>
       settled (E ++ switch_on config 1 ++ seconds (PUMP1_DURATION config)
                  ++ switch_off config 1 ++ seconds (WAIT_BETWEEN_PUMPS config)
                  ++ switch_on config 2 ++ seconds (PUMP2_DURATION config)
                  ++ switch_off config 2)
               (lines_off config 2 (lines_on config 2
                  (lines_off config 1 (lines_on config 1 L)))) false []).
Proof.
  unfold sequence_stages, seconds.
  eapply returns_bind; [apply settled_log |]. intros ?; cbv beta.
  eapply returns_bind; [apply settled_log |]. intros ?; cbv beta.
  eapply returns_bind; [apply (settled_control_pump_on config E L false [] 1); auto |].
  intros r1 w1 [Hok1 Hw1]. rewrite Hok1. revert w1 Hw1.
  eapply returns_bind; [apply settled_hold_through |].
  intros b w [-> Hw]. revert w Hw.
  eapply returns_bind; [apply (settled_control_pump_off config _ _ false [] 1); auto |].
  intros r2.
  eapply returns_bind; [intros w2 [_ Hw2]; apply (settled_log _ _ _ _ _ w2 Hw2) |].
  intros ?; cbv beta.
  eapply returns_bind; [apply settled_log |]. intros ?; cbv beta.
  eapply returns_bind; [apply settled_wait_between_through |].
  intros b w [-> Hw]. revert w Hw.
  eapply returns_bind; [apply settled_log |]. intros ?; cbv beta.
  eapply returns_bind; [apply (settled_control_pump_on config _ _ false [] 2); auto |].
  intros r3 w3 [Hok3 Hw3]. rewrite Hok3. revert w3 Hw3.
  eapply returns_bind; [apply settled_hold_through |].
  intros b w [-> Hw]. revert w Hw.
  eapply returns_bind; [apply (settled_control_pump_off config _ _ false [] 2); auto |].
  intros r4.
  eapply returns_bind; [intros w4 [_ Hw4]; apply (settled_log _ _ _ _ _ w4 Hw4) |].
  intros ?; cbv beta.
  eapply returns_weaken; [apply settled_log |].
  intros ? w Hw. cbv beta in Hw. rewrite <- !app_assoc in Hw. exact Hw.
Qed.

(** X8. Left alone on sound hardware, the sequence is: channel 1 ON, a hold of
    [PUMP1_DURATION] seconds, channel 1 OFF, [WAIT_BETWEEN_PUMPS] seconds
    of waiting, channel 2 ON, a hold of [PUMP2_DURATION] seconds, channel 2
    OFF; nothing else reaches the hardware or the clock, and the stop
    event is still clear at the end. *)
Theorem sequence_uninterrupted (config : SystemConfig) (w : World) :
  gpio_initialized w = true -> gpio_faults w = [] ->
  stop_event w = false -> interference w = [] ->
  effects (run (_execute_snoring_response config) w)
  = effects w ++ switch_on config 1 ++ seconds (PUMP1_DURATION config)
      ++ switch_off config 1 ++ seconds (WAIT_BETWEEN_PUMPS config)
      ++ switch_on config 2 ++ seconds (PUMP2_DURATION config)
      ++ switch_off config 2
  /\ stop_event (run (_execute_snoring_response config) w) = false.
Proof.
  intros Hinit Hfaults Hstop Hquiet.
  pose proof (settled_start w Hinit Hfaults) as Hw. rewrite Hstop, Hquiet in Hw.
  destruct (settled_execute config _ _ _ _ _ _ _ _
              (sequence_stages_through config (effects w) (line_level w)) w Hw)
    as (u & w' & Erun & (_ & _ & _ & Heff & Hs & _)).
  unfold run. rewrite Erun. cbn [snd]. split; assumption.
Qed.

Lemma sequence_uninterrupted_witness :
  length (effects (run (_execute_snoring_response default_config) idle_world))
  = (4 * 5 + 50 + 60 + 20)%nat.
Proof.
  rewrite (proj1 (sequence_uninterrupted default_config idle_world
                    eq_refl eq_refl eq_refl eq_refl)).
  reflexivity.
Defined.

(** X9. When the stop event is found set at poll [k] of the first hold, the
    sequence has held pump 1 for [k] seconds, switches channel 1 off at
    that poll and ends: channel 2 is never engaged. *)
Theorem sequence_cancelled_in_first_hold
    (config : SystemConfig) (w : World) (k : nat) (later : list (option bool)) :
  gpio_initialized w = true -> gpio_faults w = [] ->
  stop_event w = false -> interference w = replicate k None ++ Some true :: later ->
  (k < Z.to_nat (PUMP1_DURATION config))%nat ->
  effects (run (_execute_snoring_response config) w)
  = effects w ++ switch_on config 1 ++ replicate k (Sleep 1000) ++ switch_off config 1
  /\ channel_off config (run (_execute_snoring_response config) w) 1 = true.
Proof.
  intros Hinit Hfaults Hstop Hintf Hk.
  pose proof (settled_start w Hinit Hfaults) as Hw. rewrite Hstop, Hintf in Hw.
  assert (Hstages :
    returns (settled (effects w) (line_level w) false (replicate k None ++ Some true :: later))
      (sequence_stages config)
      (fun _ => settled (effects w ++ switch_on config 1 ++ replicate k (Sleep 1000)
                           ++ switch_off config 1)
                        (lines_off config 1 (lines_on config 1 (line_level w)))
                        true later)).
  { unfold sequence_stages.
    eapply returns_bind; [apply settled_log |]. intros ?; cbv beta.
    eapply returns_bind; [apply settled_log |]. intros ?; cbv beta.
    eapply returns_bind; [apply (settled_control_pump_on config _ _ _ _ 1); auto |].
    intros r1 w1 [Hok1 Hw1]. rewrite Hok1. revert w1 Hw1.
    eapply returns_bind; [apply (settled_hold_cancelled config 1 _ k); auto |].
    intros b w1 [-> Hw1]. revert w1 Hw1. apply returns_ret.
    intros w1 Hw1. rewrite <- !app_assoc in Hw1. exact Hw1. }
  destruct (settled_execute config _ _ _ _ _ _ _ _ Hstages w Hw)
    as (u & w' & Erun & (_ & _ & Hlines & Heff & _ & _)).
  unfold run. rewrite Erun. cbn [snd]. split; [assumption |].
  rewrite channel_off_levels. unfold level. rewrite Hlines, !level_after_cycle.
  split; case_decide; try reflexivity; exfalso; intuition congruence.
Qed.

Lemma sequence_cancelled_in_first_hold_witness :
  effects (run (_execute_snoring_response default_config) cancelled_world)
  = switch_on default_config 1 ++ [Sleep 1000; Sleep 1000] ++ switch_off default_config 1.
Proof.
  apply (proj1 (sequence_cancelled_in_first_hold default_config cancelled_world 2 []
                  eq_refl eq_refl eq_refl eq_refl ltac:(vm_compute; lia))).
Defined.

(** A hold during whose [n] polls no other thread touches the stop event
    lasts its [n] seconds, whatever is to come afterwards. *)
Lemma settled_hold_pending (config : SystemConfig) (c : Z) (note : msg) (n : nat) E L
      (I : list (option bool)) :
  returns (settled E L false (replicate n None ++ I))
          (hold n (log note ;; control_pump config c "OFF" ;; ret tt)%M)
          (fun b w => b = false
                      /\ settled (E ++ replicate n (Sleep 1000)) L false I w).
Proof.
  revert E. induction n as [| n IH]; intros E; cbn [hold replicate app].
  - apply returns_ret. intros w Hw. rewrite app_nil_r. auto.
  - eapply returns_bind; [apply settled_is_set_unchanged |].
    intros b w [-> Hw]. revert w Hw.
    eapply returns_bind; [apply settled_sleep |]. intros ?; cbv beta.
    eapply returns_weaken; [apply IH |].
    intros b w [-> Hw]. split; [reflexivity |].
    rewrite <- app_assoc in Hw. exact Hw.
Qed.

Lemma settled_progress_line E L s I (total i : Z) :
  returns (settled E L s I)
          (if (i + 1) mod 60 =? 0 then
             log [Str "⏰ Waiting... "; Int ((total - i - 1) / 60);
                  Str " minutes remaining"]
           else ret tt)
          (fun _ => settled E L s I).
Proof.
  destruct ((i + 1) mod 60 =? 0);
    [apply settled_log | apply returns_ret; intros w Hw; exact Hw].
Qed.

(** The same for the interval. *)
Lemma settled_wait_between_pending (total : Z) (n : nat) (i : Z) E L
      (I : list (option bool)) :
  returns (settled E L false (replicate n None ++ I)) (wait_between total i n)
          (fun b w => b = false
                      /\ settled (E ++ replicate n (Sleep 1000)) L false I w).
Proof.
  revert i E. induction n as [| n IH]; intros i E; cbn [wait_between replicate app].
  - apply returns_ret. intros w Hw. rewrite app_nil_r. auto.
  - eapply returns_bind; [apply settled_is_set_unchanged |].
    intros b w [-> Hw]. revert w Hw.
    eapply returns_bind; [apply settled_sleep |]. intros ?; cbv beta.
    eapply returns_bind; [apply settled_progress_line |]. intros ?; cbv beta.
    eapply returns_weaken; [apply IH |].
    intros b w [-> Hw]. split; [reflexivity |].
    rewrite <- app_assoc in Hw. exact Hw.
Qed.

(** An interval during which the stop event is found set at poll [k] has
    waited [k] seconds and writes no line. *)
Lemma settled_wait_between_cancelled (total : Z) (k n : nat) (i : Z) E L
      (I : list (option bool)) :
  (k < n)%nat ->
  returns (settled E L false (replicate k None ++ Some true :: I))
          (wait_between total i n)
          (fun b w => b = true /\ settled (E ++ replicate k (Sleep 1000)) L true I w).
Proof.
  revert n i E. induction k as [| k IH]; intros n i E Hk;
    (destruct n as [| n]; [lia |]); cbn [wait_between replicate app].
  - eapply returns_bind; [apply settled_is_set_changed |].
    intros b w [-> Hw]. revert w Hw.
    eapply returns_bind; [apply settled_log |]. intros ?; cbv beta.
    apply returns_ret. intros w Hw. rewrite app_nil_r. auto.
  - eapply returns_bind; [apply settled_is_set_unchanged |].
    intros b w [-> Hw]. revert w Hw.
    eapply returns_bind; [apply settled_sleep |]. intros ?; cbv beta.
    eapply returns_bind; [apply settled_progress_line |]. intros ?; cbv beta.
    eapply returns_weaken; [apply (IH n); lia |].
    intros b w [-> Hw]. split; [reflexivity |].
    rewrite <- app_assoc in Hw. exact Hw.
Qed.

(** X26. When the stop event is found set at poll [k] of the interval, after
    a first stage that ran its full time, the sequence has waited [k]
    seconds and ends there: after channel 1 was switched off no line is
    written, pump 2 does not run, and channel 1 is OFF at the exit. *)
Theorem sequence_cancelled_in_interval
    (config : SystemConfig) (w : World) (k : nat) (later : list (option bool)) :
  gpio_initialized w = true -> gpio_faults w = [] -> stop_event w = false ->
  interference w
  = replicate (Z.to_nat (PUMP1_DURATION config)) None
      ++ replicate k None ++ Some true :: later ->
  (k < Z.to_nat (WAIT_BETWEEN_PUMPS config))%nat ->
  effects (run (_execute_snoring_response config) w)
  = effects w ++ switch_on config 1 ++ seconds (PUMP1_DURATION config)
      ++ switch_off config 1 ++ replicate k (Sleep 1000)
  /\ line_level (run (_execute_snoring_response config) w)
     = lines_off config 1 (lines_on config 1 (line_level w))
  /\ channel_off config (run (_execute_snoring_response config) w) 1 = true.
Proof.
  intros Hinit Hfaults Hstop Hintf Hk.
  pose proof (settled_start w Hinit Hfaults) as Hw. rewrite Hstop, Hintf in Hw.
  assert (Hstages :
    returns (settled (effects w) (line_level w) false
               (replicate (Z.to_nat (PUMP1_DURATION config)) None
                  ++ replicate k None ++ Some true :: later))
      (sequence_stages config)
      (fun _ => settled (effects w ++ switch_on config 1
                           ++ seconds (PUMP1_DURATION config)
                           ++ switch_off config 1 ++ replicate k (Sleep 1000))
                        (lines_off config 1 (lines_on config 1 (line_level w)))
                        true later)).
  { unfold sequence_stages, seconds.
    eapply returns_bind; [apply settled_log |]. intros ?; cbv beta.
    eapply returns_bind; [apply settled_log |]. intros ?; cbv beta.
    eapply returns_bind; [apply (settled_control_pump_on config _ _ _ _ 1); auto |].
    intros r1 w1 [Hok1 Hw1]. rewrite Hok1. revert w1 Hw1.
    eapply returns_bind; [apply settled_hold_pending |].
    intros b w1 [-> Hw1]. revert w1 Hw1.
    eapply returns_bind; [apply (settled_control_pump_off config _ _ _ _ 1); auto |].
    intros r2.
    eapply returns_bind; [intros w2 [_ Hw2]; apply (settled_log _ _ _ _ _ w2 Hw2) |].
    intros ?; cbv beta.
    eapply returns_bind; [apply settled_log |]. intros ?; cbv beta.
    eapply returns_bind; [apply (settled_wait_between_cancelled _ k); exact Hk |].
    intros b w1 [-> Hw1]. revert w1 Hw1. apply returns_ret.
    intros w1 Hw1. rewrite <- !app_assoc in Hw1. exact Hw1. }
  destruct (settled_execute config _ _ _ _ _ _ _ _ Hstages w Hw)
    as (u & w' & Erun & (_ & _ & Hlines & Heff & _ & _)).
  unfold run. rewrite Erun. cbn [snd]. split; [assumption |]. split; [assumption |].
  rewrite channel_off_levels. unfold level. rewrite Hlines, !level_after_cycle.
  split; case_decide; try reflexivity; exfalso; intuition congruence.
Qed.

Lemma sequence_cancelled_in_interval_witness :
  gpio_writes (effects (run (_execute_snoring_response default_config)
                          (set_stop_event false
                             (replicate 50 None ++ [None; None; Some true]) idle_world)))
  = [GpioWrite 23 1; GpioWrite 17 1; GpioWrite 17 0; GpioWrite 23 0].
Proof.
  rewrite (proj1 (sequence_cancelled_in_interval default_config
                    (set_stop_event false
                       (replicate 50 None ++ [None; None; Some true]) idle_world)
                    2 [] eq_refl eq_refl eq_refl eq_refl ltac:(vm_compute; lia))).
  reflexivity.
Defined.

(** X27. When the stop event is found set at poll [k] of the second hold,
    after a first stage and an interval that ran their full time, the
    sequence has held pump 2 for [k] seconds, switches channel 2 off at that
    poll and ends; both channels are OFF at the exit. *)
Theorem sequence_cancelled_in_second_hold
    (config : SystemConfig) (w : World) (k : nat) (later : list (option bool)) :
  gpio_initialized w = true -> gpio_faults w = [] -> stop_event w = false ->
  interference w
  = replicate (Z.to_nat (PUMP1_DURATION config)) None
      ++ replicate (Z.to_nat (WAIT_BETWEEN_PUMPS config)) None
      ++ replicate k None ++ Some true :: later ->
  (k < Z.to_nat (PUMP2_DURATION config))%nat ->
  effects (run (_execute_snoring_response config) w)
  = effects w ++ switch_on config 1 ++ seconds (PUMP1_DURATION config)
      ++ switch_off config 1 ++ seconds (WAIT_BETWEEN_PUMPS config)
      ++ switch_on config 2 ++ replicate k (Sleep 1000) ++ switch_off config 2
  /\ channel_off config (run (_execute_snoring_response config) w) 1 = true
  /\ channel_off config (run (_execute_snoring_response config) w) 2 = true.
Proof.
  intros Hinit Hfaults Hstop Hintf Hk.
  pose proof (settled_start w Hinit Hfaults) as Hw. rewrite Hstop, Hintf in Hw.
  assert (Hstages :
    returns (settled (effects w) (line_level w) false
               (replicate (Z.to_nat (PUMP1_DURATION config)) None
                  ++ replicate (Z.to_nat (WAIT_BETWEEN_PUMPS config)) None
                  ++ replicate k None ++ Some true :: later))
      (sequence_stages config)
      (fun _ => settled (effects w ++ switch_on config 1
                           ++ seconds (PUMP1_DURATION config)
                           ++ switch_off config 1
                           ++ seconds (WAIT_BETWEEN_PUMPS config)
                           ++ switch_on config 2 ++ replicate k (Sleep 1000)
                           ++ switch_off config 2)
                        (lines_off config 2 (lines_on config 2
                           (lines_off config 1 (lines_on config 1 (line_level w)))))
                        true later)).
  { unfold sequence_stages, seconds.
    eapply returns_bind; [apply settled_log |]. intros ?; cbv beta.
    eapply returns_bind; [apply settled_log |]. intros ?; cbv beta.
    eapply returns_bind; [apply (settled_control_pump_on config _ _ _ _ 1); auto |].
    intros r1 w1 [Hok1 Hw1]. rewrite Hok1. revert w1 Hw1.
    eapply returns_bind; [apply settled_hold_pending |].
    intros b w1 [-> Hw1]. revert w1 Hw1.
    eapply returns_bind; [apply (settled_control_pump_off config _ _ _ _ 1); auto |].
    intros r2.
    eapply returns_bind; [intros w2 [_ Hw2]; apply (settled_log _ _ _ _ _ w2 Hw2) |].
    intros ?; cbv beta.
    eapply returns_bind; [apply settled_log |]. intros ?; cbv beta.
    eapply returns_bind; [apply settled_wait_between_pending |].
    intros b w1 [-> Hw1]. revert w1 Hw1.
    eapply returns_bind; [apply settled_log |]. intros ?; cbv beta.
    eapply returns_bind; [apply (settled_control_pump_on config _ _ _ _ 2); auto |].
    intros r3 w3 [Hok3 Hw3]. rewrite Hok3. revert w3 Hw3.
    eapply returns_bind; [apply (settled_hold_cancelled config 2 _ k); auto |].
    intros b w1 [-> Hw1]. revert w1 Hw1. apply returns_ret.
    intros w1 Hw1. rewrite <- !app_assoc in Hw1. exact Hw1. }
  destruct (settled_execute config _ _ _ _ _ _ _ _ Hstages w Hw)
    as (u & w' & Erun & (_ & _ & Hlines & Heff & _ & _)).
  unfold run. rewrite Erun. cbn [snd]. split; [assumption |].
  rewrite !channel_off_levels. unfold level. rewrite Hlines, !level_after_cycle.
  repeat split; repeat case_decide; try reflexivity; exfalso; intuition congruence.
Qed.

Lemma sequence_cancelled_in_second_hold_witness :
  gpio_writes (effects (run (_execute_snoring_response default_config)
                          (set_stop_event false
                             (replicate 110 None ++ [None; Some true]) idle_world)))
  = [GpioWrite 23 1; GpioWrite 17 1; GpioWrite 17 0; GpioWrite 23 0;
     GpioWrite 24 1; GpioWrite 27 1; GpioWrite 27 0; GpioWrite 24 0].
Proof.
  rewrite (proj1 (sequence_cancelled_in_second_hold default_config
                    (set_stop_event false
                       (replicate 110 None ++ [None; Some true]) idle_world)
                    1 [] eq_refl eq_refl eq_refl eq_refl ltac:(vm_compute; lia))).
  reflexivity.
Defined.

(** X10. A sequence started while the stop event is set (as it stays after
    [stop_auto_detection], until the loop is started again) switches
    channel 1 on and, at its first poll, off again: there is no hold, no
    interval, and pump 2 does not run. *)
Theorem sequence_after_stop (config : SystemConfig) (w : World) :
  gpio_initialized w = true -> gpio_faults w = [] ->
  stop_event w = true -> interference w = [] ->
  0 < PUMP1_DURATION config ->
  effects (run (_execute_snoring_response config) w)
  = effects w ++ switch_on config 1 ++ switch_off config 1.
Proof.
  intros Hinit Hfaults Hstop Hquiet Hdur.
  pose proof (settled_start w Hinit Hfaults) as Hw. rewrite Hstop, Hquiet in Hw.
  assert (Hstages :
    returns (settled (effects w) (line_level w) true []) (sequence_stages config)
      (fun _ => settled (effects w ++ switch_on config 1 ++ switch_off config 1)
                        (lines_off config 1 (lines_on config 1 (line_level w)))
                        true [])).
  { unfold sequence_stages.
    eapply returns_bind; [apply settled_log |]. intros ?; cbv beta.
    eapply returns_bind; [apply settled_log |]. intros ?; cbv beta.
    eapply returns_bind; [apply (settled_control_pump_on config _ _ _ _ 1); auto |].
    intros r1 w1 [Hok1 Hw1]. rewrite Hok1. revert w1 Hw1.
    eapply returns_bind; [apply (settled_hold_stopped config 1); [auto | lia] |].
    intros b w1 [-> Hw1]. revert w1 Hw1. apply returns_ret.
    intros w1 Hw1. rewrite <- !app_assoc in Hw1. exact Hw1. }
  destruct (settled_execute config _ _ _ _ _ _ _ _ Hstages w Hw)
    as (u & w' & Erun & (_ & _ & _ & Heff & _ & _)).
  unfold run. rewrite Erun. cbn [snd]. assumption.
Qed.

Lemma sequence_after_stop_witness :
  gpio_writes (effects (run (_execute_snoring_response default_config)
                            (run stop_auto_detection idle_world)))
  = [GpioWrite 23 1; GpioWrite 17 1; GpioWrite 17 0; GpioWrite 23 0].
Proof.
  rewrite (sequence_after_stop default_config (run stop_auto_detection idle_world)
             eq_refl eq_refl eq_refl eq_refl eq_refl).
  reflexivity.
Defined.

(** X11. On a controller whose GPIO initialisation failed the sequence changes
    nothing but the store: it marks itself active, logs its start, the
    first step and that step's failure, and clears the mark.  No line is
    written, no lock taken, no time spent. *)
Theorem sequence_on_degraded_controller (config : SystemConfig) (w : World) :
  gpio_initialized w = false ->
  run (_execute_snoring_response config) w
  = set_data_store
      (fun d =>
         update_status {[ ACTIVE := VBool false ]}
           (add_log_entry [Str "❌ Step 1 failed: "; Str "GPIO not available"]
              (add_log_entry [Str "💨 Step 1: Activating Pump 1 & Valve 1 for ";
                              Int (PUMP1_DURATION config); Str " seconds"]
                 (add_log_entry [Str "🔄 Starting snoring response sequence"]
                    (update_status {[ ACTIVE := VBool true ]} d))))) w.
Proof.
  intros Hinit. destruct w as [ds init lines effs faults stop intf thr js].
  cbn in Hinit. subst init. reflexivity.
Qed.

Lemma sequence_on_degraded_controller_witness :
  effects (run (_execute_snoring_response default_config) degraded_world) = [].
Proof.
  rewrite (sequence_on_degraded_controller default_config degraded_world eq_refl).
  reflexivity.
Defined.

(** ** Manual pillow operations *)

Lemma settled_adjust_pillow (config : SystemConfig) (level : Z) E L s I :
  level = 1 \/ level = 2 \/ level = 3 ->
  returns (settled E L s I) (adjust_pillow config level)
    (fun r w =>
       success r = true
       /\ settled (E ++ switch_on config 2 ++ [Sleep 20000] ++ switch_off config 2
                     ++ switch_on config 1
                     ++ [Sleep (default 0 (duration_map !! level) * 1000)]
                     ++ switch_off config 1)
                  (lines_off config 1 (lines_on config 1
                     (lines_off config 2 (lines_on config 2 L)))) s I w).
Proof.
  intros Hlevel. unfold adjust_pillow.
  assert (Hin : existsb (Z.eqb level) [1; 2; 3] = true)
    by (destruct Hlevel as [-> | [-> | ->]]; reflexivity).
  rewrite Hin. cbn [negb]. apply returns_try_except.
  eapply returns_bind; [apply settled_log |]. intros ?; cbv beta.
  eapply returns_bind; [apply (settled_control_pump_on config E L s I 2); auto |].
  intros r1 w1 [Hok1 Hw1]. rewrite Hok1. cbn [negb]. revert w1 Hw1.
  eapply returns_bind; [apply settled_sleep |]. intros ?; cbv beta.
  eapply returns_bind; [apply (settled_control_pump_off config _ _ s I 2); auto |].
  intros r2.
  eapply returns_bind with
    (Q := fun d w => d = default 0 (duration_map !! level)
                     /\ settled ((E ++ switch_on config 2) ++ [Sleep 20000]
                                   ++ switch_off config 2)
                                (lines_off config 2 (lines_on config 2 L)) s I w).
  { intros w2 [_ Hw2]. rewrite <- app_assoc in Hw2.
    destruct Hlevel as [-> | [-> | ->]]; eexists _, w2; (split; [reflexivity |]); auto. }
  intros d w2 [-> Hw2]. revert w2 Hw2.
  eapply returns_bind; [apply (settled_control_pump_on config _ _ s I 1); auto |].
  intros r3 w3 [Hok3 Hw3]. rewrite Hok3. cbn [negb]. revert w3 Hw3.
  eapply returns_bind; [apply settled_sleep |]. intros ?; cbv beta.
  eapply returns_bind; [apply (settled_control_pump_off config _ _ s I 1); auto |].
  intros r4.
  eapply returns_bind; [intros w4 [_ Hw4]; apply (settled_log _ _ _ _ _ w4 Hw4) |].
  intros ?; cbv beta. apply returns_ret.
  intros w Hw. split; [reflexivity |]. rewrite <- !app_assoc in Hw. exact Hw.
Qed.

(** X12. [adjust_pillow] refuses a level other than 1, 2 or 3 without doing
    anything.  For a valid level on sound hardware it succeeds after
    running pump 2 for 20 seconds and then pump 1 for 15, 30 or 50 seconds
    (levels 1, 2, 3), each switched on and off in the controller's order,
    and leaves both channels OFF.  It never consults the stop event: its
    value and the pending changes to it are those it found. *)
Theorem adjust_pillow_runs (config : SystemConfig) (w : World) (lv : Z) :
  (lv <> 1 -> lv <> 2 -> lv <> 3 ->
     answer (adjust_pillow config lv) w
       = Returned {| success := false; message := [Str "Level must be 1, 2, or 3"] |}
     /\ run (adjust_pillow config lv) w = w)
  /\ (lv = 1 \/ lv = 2 \/ lv = 3 ->
      gpio_initialized w = true -> gpio_faults w = [] ->
      let hold := if lv =? 1 then 15 else if lv =? 2 then 30 else 50 in
      let w' := run (adjust_pillow config lv) w in
      succeeded (answer (adjust_pillow config lv) w) = true
      /\ effects w'
         = effects w ++ switch_on config 2 ++ [Sleep 20000] ++ switch_off config 2
             ++ switch_on config 1 ++ [Sleep (hold * 1000)] ++ switch_off config 1
      /\ channel_off config w' 1 = true /\ channel_off config w' 2 = true
      /\ stop_event w' = stop_event w /\ interference w' = interference w).
Proof.
  split.
  - intros H1 H2 H3. apply Z.eqb_neq in H1, H2, H3.
    unfold adjust_pillow, answer, run. cbn [existsb]. rewrite H1, H2, H3.
    split; reflexivity.
  - intros Hlevel Hinit Hfaults.
    destruct (settled_adjust_pillow config lv _ _ _ _ Hlevel w
                (settled_start w Hinit Hfaults))
      as (r & w' & Erun & Hok & (_ & _ & Hlines & Heff & Hs & HI)).
    unfold answer, run, succeeded. rewrite Erun. cbn [fst snd].
    repeat split; try assumption.
    + rewrite Heff. destruct Hlevel as [-> | [-> | ->]]; reflexivity.
    + rewrite channel_off_levels. unfold level. rewrite Hlines, !level_after_cycle.
      split; case_decide; try reflexivity; exfalso; intuition congruence.
    + rewrite channel_off_levels. unfold level. rewrite Hlines, !level_after_cycle.
      split; repeat case_decide; try reflexivity; exfalso; intuition congruence.
Qed.

Lemma adjust_pillow_runs_witness :
  run (adjust_pillow default_config 0) idle_world = idle_world
  /\ succeeded (answer (adjust_pillow default_config 3) idle_world) = true.
Proof.
  split.
  - apply (proj1 (adjust_pillow_runs default_config idle_world 0)); discriminate.
  - apply (proj2 (adjust_pillow_runs default_config idle_world 3));
      [right; right; reflexivity | reflexivity | reflexivity].
Defined.

Lemma settled_deflate_pillow (config : SystemConfig) E L s I :
  returns (settled E L s I) (deflate_pillow config)
    (fun r w =>
       success r = true
       /\ settled (E ++ switch_on config 2 ++ [Sleep 30000] ++ switch_off config 2)
                  (lines_off config 2 (lines_on config 2 L)) s I w).
Proof.
  unfold deflate_pillow. apply returns_try_except.
  eapply returns_bind; [apply settled_log |]. intros ?; cbv beta.
  eapply returns_bind; [apply (settled_control_pump_on config E L s I 2); auto |].
  intros r1 w1 [Hok1 Hw1]. rewrite Hok1. cbn [negb]. revert w1 Hw1.
  eapply returns_bind; [apply settled_sleep |]. intros ?; cbv beta.
  eapply returns_bind; [apply (settled_control_pump_off config _ _ s I 2); auto |].
  intros r2.
  eapply returns_bind; [intros w2 [_ Hw2]; apply (settled_log _ _ _ _ _ w2 Hw2) |].
  intros ?; cbv beta. apply returns_ret.
  intros w Hw. split; [reflexivity |]. rewrite <- !app_assoc in Hw. exact Hw.
Qed.

(** X13. [deflate_pillow] on sound hardware runs pump 2 for 30 seconds and
    leaves channel 2 OFF; the lines of channel 1 keep their levels.  On a
    controller whose GPIO initialisation failed it answers the controller's
    failure and touches neither the hardware nor the clock. *)
Theorem deflate_pillow_runs (config : SystemConfig) (w : World) :
  (gpio_initialized w = false ->
     answer (deflate_pillow config) w
       = Returned {| success := false; message := [Str "GPIO not available"] |}
     /\ effects (run (deflate_pillow config) w) = effects w
     /\ line_level (run (deflate_pillow config) w) = line_level w)
  /\ (gpio_initialized w = true -> gpio_faults w = [] ->
      let w' := run (deflate_pillow config) w in
      succeeded (answer (deflate_pillow config) w) = true
      /\ effects w'
         = effects w ++ switch_on config 2 ++ [Sleep 30000] ++ switch_off config 2
      /\ channel_off config w' 2 = true
      /\ (forall q, q <> pump_pin_of config 2 -> q <> valve_pin_of config 2 ->
            level w' q = level w q)).
Proof.
  split.
  - intros Hinit. destruct w as [ds init lines effs faults stop intf thr js].
    cbn in Hinit. subst init. repeat split.
  - intros Hinit Hfaults.
    destruct (settled_deflate_pillow config _ _ _ _ w (settled_start w Hinit Hfaults))
      as (r & w' & Erun & Hok & (_ & _ & Hlines & Heff & _ & _)).
    unfold answer, run, succeeded. rewrite Erun. cbn [fst snd].
    repeat split; try assumption.
    + rewrite channel_off_levels. unfold level. rewrite Hlines, !level_after_cycle.
      split; case_decide; try reflexivity; exfalso; intuition congruence.
    + intros q Hp Hv. unfold level. rewrite Hlines, level_after_cycle.
      case_decide; [exfalso; intuition congruence | reflexivity].
Qed.

Lemma deflate_pillow_runs_witness :
  effects (run (deflate_pillow default_config) degraded_world) = []
  /\ channel_off default_config (run (deflate_pillow default_config) idle_world) 2 = true.
Proof.
  split.
  - apply (proj1 (deflate_pillow_runs default_config degraded_world)). reflexivity.
  - apply (proj2 (deflate_pillow_runs default_config idle_world)); reflexivity.
Defined.

(** ** Shutdown *)

Ltac run_cleanup :=
  unfold cleanup, GPIOController_cleanup, stop_auto_detection, join, bind, gets, ret,
    modify, log, status_update, gpio_write, run; cbn.

Lemma lowered_lines (a b c d q : Z) (L : gmap Z Z) :
  q = a \/ q = b \/ q = c \/ q = d ->
  default 0 (<[d := 0]> (<[c := 0]> (<[b := 0]> (<[a := 0]> L))) !! q) = 0.
Proof.
  intros Hq.
  rewrite lookup_insert. case_decide; [reflexivity |].
  rewrite lookup_insert. case_decide; [reflexivity |].
  rewrite lookup_insert. case_decide; [reflexivity |].
  rewrite lookup_insert. case_decide; [reflexivity |].
  exfalso. intuition congruence.
Qed.

Lemma channel_off_lowered (config : SystemConfig) (w : World) (c : Z) (L : gmap Z Z) :
  line_level w
  = <[SOLENOID_VALVE_PIN_2 config := 0]>
      (<[SOLENOID_VALVE_PIN_1 config := 0]>
         (<[PUMP_RELAY_PIN_2 config := 0]> (<[PUMP_RELAY_PIN config := 0]> L))) ->
  channel_off config w c = true.
Proof.
  intros Hlines. rewrite channel_off_levels. unfold level. rewrite Hlines.
  unfold pump_pin_of, valve_pin_of.
  destruct (c =? 1); rewrite !lowered_lines by tauto; split; reflexivity.
Qed.

(** X14. [cleanup] stops the loop and then lowers the four lines.  Whatever
    the state of the hardware, afterwards the stop event is set and
    [auto_detect_enabled] is false.  On an initialised controller whose
    four writes succeed, both channels are OFF whatever they were, the
    lines are written in the order pump 1, pump 2, valve 1, valve 2 without
    the controller lock, and then the four lines are freed and the chip is
    closed; [pump_status] is not updated.  Without initialisation nothing
    is written or released; and when the first write raises, no line is
    lowered and nothing is released. *)
Theorem cleanup_shuts_down (config : SystemConfig) (w : World) :
  (stop_event (fst (cleanup config w)) = true
   /\ get_status (data_store (fst (cleanup config w))) !! "auto_detect_enabled"
      = Some (VBool false)
   /\ get_status (data_store (fst (cleanup config w))) !! "pump_status"
      = get_status (data_store w) !! "pump_status")
  /\ (gpio_initialized w = true -> writes_succeed 4 w = true ->
      channel_off config (fst (cleanup config w)) 1 = true
      /\ channel_off config (fst (cleanup config w)) 2 = true
      /\ effects (fst (cleanup config w))
         = effects w
           ++ (if thread_alive (_auto_detection_thread w) then [Join 5] else [])
           ++ [GpioWrite (PUMP_RELAY_PIN config) 0; GpioWrite (PUMP_RELAY_PIN_2 config) 0;
               GpioWrite (SOLENOID_VALVE_PIN_1 config) 0;
               GpioWrite (SOLENOID_VALVE_PIN_2 config) 0]
      /\ snd (cleanup config w)
         = [GpioFree (PUMP_RELAY_PIN config); GpioFree (PUMP_RELAY_PIN_2 config);
            GpioFree (SOLENOID_VALVE_PIN_1 config); GpioFree (SOLENOID_VALVE_PIN_2 config);
            ChipClose])
  /\ (gpio_initialized w = false ->
      line_level (fst (cleanup config w)) = line_level w
      /\ gpio_writes (effects (fst (cleanup config w))) = gpio_writes (effects w)
      /\ snd (cleanup config w) = [])
  /\ (forall e rest,
        gpio_initialized w = true -> gpio_faults w = Some e :: rest ->
        line_level (fst (cleanup config w)) = line_level w
        /\ snd (cleanup config w) = []).
Proof.
  destruct w as [ds init lines effs faults stop intf thr js].
  assert (Henabled : forall S : gmap string value,
             ({[ "auto_detect_enabled" := VBool false ]} ∪ S) !! "auto_detect_enabled"
             = Some (VBool false)).
  { intros S. rewrite <- insert_union_singleton_l. apply lookup_insert_eq. }
  assert (Hpump : forall S : gmap string value,
             ({[ "auto_detect_enabled" := VBool false ]} ∪ S) !! "pump_status"
             = S !! "pump_status").
  { intros S. rewrite <- insert_union_singleton_l. apply lookup_insert_ne. discriminate. }
  unfold writes_succeed. cbn [gpio_initialized gpio_faults _auto_detection_thread].
  split; [| split; [| split]].
  - destruct thr as [[tgt []] |], init;
      try destruct faults as [| [?|] [| [?|] [| [?|] [| [?|] ?]]]];
      run_cleanup; unfold get_status; rewrite Henabled, Hpump; repeat split.
  - intros -> Hok.
    destruct thr as [[tgt []] |];
      destruct faults as [| [?|] [| [?|] [| [?|] [| [?|] ?]]]]; cbn in Hok;
      try discriminate Hok;
      (split; [apply (channel_off_lowered config _ 1 lines); reflexivity |]);
      (split; [apply (channel_off_lowered config _ 2 lines); reflexivity |]);
      run_cleanup; rewrite <- ?app_assoc, ?app_nil_r; split; reflexivity.
  - intros ->.
    destruct thr as [[tgt []] |]; run_cleanup;
      (split; [reflexivity | split; [| reflexivity]]);
      [| exact eq_refl | exact eq_refl].
    change (gpio_writes (effs ++ [Join 5]) = gpio_writes effs).
    rewrite gpio_writes_snoc. apply app_nil_r.
  - intros e rest -> ->.
    destruct thr as [[tgt []] |]; run_cleanup; split; reflexivity.
Qed.

Lemma cleanup_shuts_down_witness :
  channel_off default_config
    (fst (cleanup default_config (run (control_pump default_config 1 "ON") idle_world))) 1
  = true
  /\ snd (cleanup default_config degraded_world) = []
  /\ snd (cleanup default_config faulty_valve_world) = [].
Proof.
  split; [| split].
  - apply (proj1 (proj2 (cleanup_shuts_down default_config
                           (run (control_pump default_config 1 "ON") idle_world))));
      reflexivity.
  - apply (proj1 (proj2 (proj2 (cleanup_shuts_down default_config degraded_world)))).
    reflexivity.
  - apply (proj2 (proj2 (proj2 (cleanup_shuts_down default_config faulty_valve_world)))
             "GPIO write failed" []); reflexivity.
Defined.

(** ** The supervisory loop *)

Lemma is_set_quiet (w : World) :
  interference w = [] -> is_set w = (Returned (stop_event w), w).
Proof. intros H. unfold is_set. rewrite H. reflexivity. Qed.

Lemma interruptible_wait_through (n : nat) (w : World) :
  stop_event w = false -> interference w = [] ->
  exists w', interruptible_wait n w = (Returned false, w')
             /\ effects w' = effects w ++ replicate n (Sleep 1000)
             /\ stop_event w' = false /\ interference w' = [].
Proof.
  revert w. induction n as [| n IH]; intros w Hstop Hquiet.
  - exists w. cbn. rewrite app_nil_r. repeat split; assumption.
  - cbn [interruptible_wait]. unfold bind at 1, wait_event. unfold bind at 1.
    rewrite (is_set_quiet w Hquiet), Hstop. cbn [bind sleep modify ret].
    destruct (IH (emit (Sleep 1000) w) Hstop Hquiet) as (w' & -> & Heff & Hs & Hi).
    exists w'. repeat split; try assumption.
    rewrite Heff. cbn [effects emit replicate]. rewrite <- app_assoc. reflexivity.
Qed.

(** X15. The wait between two cycles can be interrupted: the stop event is
    looked at before each of the [n] one-second waits, and when it is
    found set at look [k] the wait ends there, after [k] seconds, and tells
    the loop to return; the seconds still to come are not slept. *)
Theorem interruptible_wait_stopped (k n : nat) (later : list (option bool)) (w : World) :
  stop_event w = false -> interference w = replicate k None ++ Some true :: later ->
  (k < n)%nat ->
  exists w', interruptible_wait n w = (Returned true, w')
             /\ effects w' = effects w ++ replicate k (Sleep 1000)
             /\ stop_event w' = true /\ interference w' = later.
Proof.
  revert n w. induction k as [| k IH]; intros n w Hstop Hintf Hk;
    (destruct n as [| n]; [lia |]);
    cbn [interruptible_wait]; unfold bind at 1, wait_event; unfold bind at 1;
    unfold is_set; rewrite Hintf; cbn [replicate app].
  - eexists. cbn. rewrite app_nil_r. repeat split.
  - rewrite Hstop. cbn [sleep modify ret bind].
    destruct (IH n (emit (Sleep 1000) (set_stop_event false (replicate k None ++ Some true :: later) w)))
      as (w' & -> & Heff & Hs & Hi); [reflexivity | reflexivity | lia |].
    exists w'. repeat split; try assumption.
    rewrite Heff. cbn [effects emit set_stop_event replicate]. rewrite <- app_assoc.
    reflexivity.
Qed.

Ltac open_loop_body :=
  unfold loop_body, try_except, status_snapshot, gets, status_item;
  unfold bind at 1; unfold bind at 1.

(** X16. The loop honours a stop request and the switch before it captures
    anything: when the stop event is set, or when [auto_detect_enabled]
    reads false, the loop returns at once and leaves the world as it is,
    however many cycles were still to come. *)
Theorem auto_detection_loop_ends
    (config : SystemConfig) (envs : list DetectionEnv) (w : World) :
  interference w = [] ->
  (stop_event w = true -> _auto_detection_loop config envs w = (Returned tt, w))
  /\ (forall enabled,
        stop_event w = false ->
        get_status (data_store w) !! "auto_detect_enabled" = Some enabled ->
        truthy enabled = false ->
        _auto_detection_loop config envs w = (Returned tt, w)).
Proof.
  intros Hquiet. split.
  - intros Hstop. destruct envs as [| env rest]; [reflexivity |].
    cbn [_auto_detection_loop]. unfold bind at 1.
    rewrite (is_set_quiet w Hquiet), Hstop. reflexivity.
  - intros enabled Hstop Hlookup Hoff. destruct envs as [| env rest]; [reflexivity |].
    cbn [_auto_detection_loop]. unfold bind at 1.
    rewrite (is_set_quiet w Hquiet), Hstop.
    unfold bind at 1. open_loop_body.
    rewrite Hlookup. cbn [ret]. rewrite Hoff. reflexivity.
Qed.

Lemma auto_detection_loop_ends_witness :
  _auto_detection_loop default_config [cycle_env (sample "กรน" 90)]
    (run stop_auto_detection enabled_world)
  = (Returned tt, run stop_auto_detection enabled_world)
  /\ _auto_detection_loop default_config [cycle_env (sample "กรน" 90)] idle_world
  = (Returned tt, idle_world).
Proof.
  split.
  - apply (proj1 (auto_detection_loop_ends default_config _
                    (run stop_auto_detection enabled_world) eq_refl)).
    reflexivity.
  - apply (proj2 (auto_detection_loop_ends default_config _ idle_world eq_refl)
             (VBool false)); reflexivity.
Defined.

(** X17. An iteration that finds a capture or an actuation sequence in
    progress skips its tick: it sleeps two seconds and goes back to the
    loop test, without recording, classifying or starting anything. *)
Theorem loop_body_skips_when_busy
    (config : SystemConfig) (env : DetectionEnv) (w : World) (enabled recording : value) :
  get_status (data_store w) !! "auto_detect_enabled" = Some enabled ->
  truthy enabled = true ->
  get_status (data_store w) !! "is_recording" = Some recording ->
  truthy recording || get_flag (get_status (data_store w)) ACTIVE = true ->
  loop_body config env w = (Returned Proceed, emit (Sleep 2000) w).
Proof.
  intros Hen Hon Hrec Hbusy. open_loop_body.
  rewrite Hen. cbn [ret]. rewrite Hon. cbn [negb].
  unfold bind at 1. rewrite Hrec. cbn [ret]. rewrite Hbusy. reflexivity.
Qed.

Lemma loop_body_skips_when_busy_witness :
  effects (run (loop_body default_config (cycle_env (sample "กรน" 90)))
               (run mark_active enabled_world))
  = effects enabled_world ++ [Sleep 2000].
Proof.
  unfold run at 1.
  rewrite (loop_body_skips_when_busy default_config _ (run mark_active enabled_world)
             (VBool true) (VBool false) eq_refl eq_refl eq_refl eq_refl).
  reflexivity.
Defined.

(** X18. An iteration that runs a cycle then waits before the next one,
    second by second: [detection_delay] minutes, as the status showed it
    before the cycle, when the cycle answered snoring above the threshold,
    and five seconds in every other case, a failed cycle included.  With no
    stop request the whole wait is served and the loop goes on. *)
Theorem loop_body_wait
    (config : SystemConfig) (env : DetectionEnv) (w : World)
    (enabled recording delay : value) :
  get_status (data_store w) !! "auto_detect_enabled" = Some enabled ->
  truthy enabled = true ->
  get_status (data_store w) !! "is_recording" = Some recording ->
  truthy recording || get_flag (get_status (data_store w)) ACTIVE = false ->
  get_status (data_store w) !! "detection_delay" = Some delay ->
  stop_event w = false -> interference w = [] ->
  let wait := match cycle_result env with
              | Some r =>
                  if is_snoring r && confidence_above_threshold config r
                  then as_int delay * 60 else 5
              | None => 5
              end in
  exists w',
    loop_body config env w = (Returned Proceed, w')
    /\ effects w' = effects (run (record_and_predict config env) w) ++ seconds wait.
Proof.
  intros Hen Hon Hrec Hfree Hdelay Hstop Hquiet. cbv zeta.
  open_loop_body.
  rewrite Hen. cbn [ret]. rewrite Hon. cbn [negb].
  unfold bind at 1. rewrite Hrec. cbn [ret]. rewrite Hfree.
  unfold bind at 1.
  destruct (record_and_predict_returns config env w) as (w1 & -> & Hs1 & Hi1 & He1).
  rewrite <- He1. rewrite Hstop in Hs1. rewrite Hquiet in Hi1.
  unfold seconds.
  destruct (cycle_result env) as [r |];
    [destruct (is_snoring r && confidence_above_threshold config r) |].
  - unfold bind at 1. unfold bind at 1. rewrite Hdelay. cbn [ret].
    unfold bind at 1, log, modify.
    unfold bind at 1. unfold ret at 1. cbv beta iota.
    destruct (interruptible_wait_through (Z.to_nat (as_int delay * 60))
                (set_data_store
                   (add_log_entry [Str "✅ Snoring detected - Next detection in ";
                                   value_piece delay; Str " minutes"]) w1) Hs1 Hi1)
      as (w2 & -> & Heff & _ & _).
    exists w2. split; [reflexivity | exact Heff].
  - unfold bind at 1. unfold ret at 1. cbv beta iota. unfold bind at 1.
    destruct (interruptible_wait_through (Z.to_nat 5) w1 Hs1 Hi1)
      as (w2 & -> & Heff & _ & _).
    exists w2. split; [reflexivity | exact Heff].
  - unfold bind at 1. unfold ret at 1. cbv beta iota. unfold bind at 1.
    destruct (interruptible_wait_through (Z.to_nat 5) w1 Hs1 Hi1)
      as (w2 & -> & Heff & _ & _).
    exists w2. split; [reflexivity | exact Heff].
Qed.

Lemma loop_body_wait_witness :
  exists w',
    loop_body default_config (cycle_env (sample "กรน" 90)) enabled_world
    = (Returned Proceed, w')
    /\ effects w'
       = effects (run (record_and_predict default_config (cycle_env (sample "กรน" 90)))
                      enabled_world)
         ++ seconds 300.
Proof.
  apply (loop_body_wait default_config (cycle_env (sample "กรน" 90)) enabled_world
           (VBool true) (VBool false) (VInt 5)); reflexivity.
Defined.

Lemma interruptible_wait_stopped_witness :
  exists w',
    interruptible_wait 300 (set_stop_event false [None; None; Some true] idle_world)
    = (Returned true, w')
    /\ effects w' = [Sleep 1000; Sleep 1000]
    /\ stop_event w' = true /\ interference w' = [].
Proof.
  apply (interruptible_wait_stopped 2 300 []
           (set_stop_event false [None; None; Some true] idle_world));
    [reflexivity | reflexivity | lia].
Defined.

(** ** The classifier's side *)

(** X19. Whatever the declared input shape, a feature extractor is chosen: the
    mel-spectrogram one exactly for shapes of rank three, the MFCC one for
    every other shape, the rank-two shapes typed "unknown" and a shape that
    cannot be read included. *)
Theorem pipeline_of_shape (input_shape : outcome (list (option Z))) :
  extract_features (_detect_model_type input_shape) = ImprovedMel
  <-> exists shape, input_shape = Returned shape /\ length shape = 3%nat.
Proof.
  destruct input_shape as [shape | e]; cbn [_detect_model_type].
  - destruct (Nat.eqb_spec (length shape) 2) as [H2 | H2].
    + split.
      * destruct (dim_is (nth 1 shape None) 40); discriminate.
      * intros (shape' & [= <-] & H3). lia.
    + destruct (Nat.eqb_spec (length shape) 3) as [H3 | H3].
      * split; [intros _; exists shape; auto | reflexivity].
      * split; [discriminate | intros (shape' & [= <-] & H3'); lia].
  - split; [discriminate | intros (shape & [=] & _)].
Qed.

Lemma argmax_from_bound (l : list float) (best : float) (best_i i : nat) :
  (best_i < i)%nat -> (argmax_from best best_i i l < i + length l)%nat.
Proof.
  revert best best_i i. induction l as [| x l IH]; intros best best_i i Hlt; cbn.
  - lia.
  - destruct (is_nan best); [lia |].
    destruct (negb (x <=? best)%float).
    + specialize (IH x i (S i)). lia.
    + specialize (IH best best_i (S i)). lia.
Qed.

(** X20. Without a label table the post-processing names the class "กรน" for
    class 1 and "ไม่กรน" for every other class, so a result counts as
    snoring exactly when its class is 1; the result carries the model type
    it was given.  For a single score the class is 1 when the score is above
    0.5 and 0 otherwise: a score of 0.5, any lower score and a NaN are class
    0, named "ไม่กรน", and not snoring.  For several scores the class is a
    position of the row.  Only an empty row gives no result. *)
Theorem fallback_labels (kind : string) (row : list float) :
  (process_prediction None kind row = None <-> row = [])
  /\ (forall r, process_prediction None kind row = Some r ->
        class_name r = (if class_id r =? 1 then "กรน" else "ไม่กรน")
        /\ is_snoring r = (class_id r =? 1)
        /\ model_type r = kind
        /\ 0 <= class_id r < Z.max 2 (Z.of_nat (length row)))
  /\ (forall score, row = [score] ->
        exists r, process_prediction None kind row = Some r
          /\ class_id r = (if (0.5 <? score)%float then 1 else 0)
          /\ class_name r = (if (0.5 <? score)%float then "กรน" else "ไม่กรน")
          /\ is_snoring r = (0.5 <? score)%float).
Proof.
  split; [| split].
  - destruct row as [| first rest]; [split; reflexivity |].
    unfold process_prediction.
    destruct (length (first :: rest) =? 1)%nat; [destruct (0.5 <? first)%float |];
      split; discriminate.
  - intros r Hr. destruct row as [| first rest]; [discriminate |].
    unfold process_prediction in Hr.
    destruct (length (first :: rest) =? 1)%nat eqn:Hlen.
    + destruct (0.5 <? first)%float; injection Hr as <-; cbn;
        repeat split; try reflexivity; lia.
    + cbv zeta in Hr.
      pose proof (argmax_from_bound rest first 0 1 ltac:(lia)) as Hbound.
      unfold argmax in Hr.
      destruct (Z.of_nat (argmax_from first 0 1 rest) =? 1) eqn:Hclass;
        injection Hr as <-; cbn [class_id class_name model_type];
        rewrite Hclass; repeat split; try reflexivity; cbn [length]; lia.
  - intros score ->. cbn.
    destruct (0.5 <? score)%float; eexists; repeat split; reflexivity.
Qed.

Lemma fallback_labels_witness :
  exists r, process_prediction None "legacy" [0.5%float] = Some r
    /\ class_id r = 0 /\ class_name r = "ไม่กรน" /\ is_snoring r = false.
Proof.
  apply (proj2 (proj2 (fallback_labels "legacy" [0.5%float])) 0.5%float).
  reflexivity.
Defined.

Lemma index_to_class_snoc (table : list (string * Z)) (name : string) (i : Z) :
  index_to_class (table ++ [(name, i)]) = <[i := name]> (index_to_class table).
Proof. unfold index_to_class. rewrite fold_left_app. reflexivity. Qed.

Lemma index_to_class_missing (table : list (string * Z)) (i : Z) :
  i ∉ table.*2 -> index_to_class table !! i = None.
Proof.
  induction table as [| [name j] table IH] using rev_ind; intros Hi.
  - reflexivity.
  - rewrite fmap_app in Hi. cbn in Hi.
    rewrite index_to_class_snoc, lookup_insert_ne.
    + apply IH. intros Hin. apply Hi. apply elem_of_app. left. exact Hin.
    + intros ->. apply Hi. apply elem_of_app. right. apply list_elem_of_singleton.
      reflexivity.
Qed.

(** X21. With a label table the class name is looked up by index in the
    inverted table.  When no two classes share an index, every class of
    the table is found under its own index; an index the table does not
    list gives the name "Unknown", which is not a snoring name: such a
    result never qualifies for the sequence, whatever its confidence. *)
Theorem label_table_lookup (table : list (string * Z)) :
  (NoDup (table.*2) ->
   forall name i, (name, i) ∈ table -> index_to_class table !! i = Some name)
  /\ (forall i, i ∉ table.*2 -> index_to_class table !! i = None)
  /\ (forall model_type row r,
        process_prediction (Some table) model_type row = Some r ->
        class_id r ∉ table.*2 ->
        class_name r = "Unknown" /\ is_snoring r = false).
Proof.
  split; [| split].
  - induction table as [| [name' j] table IH] using rev_ind; intros Hnodup name i Hin.
    + apply elem_of_nil in Hin. contradiction.
    + rewrite fmap_app in Hnodup. cbn in Hnodup.
      apply NoDup_app in Hnodup as (Hnd & Hfresh & _).
      rewrite index_to_class_snoc.
      apply elem_of_app in Hin as [Hin | Hin].
      * rewrite lookup_insert_ne; [apply IH; assumption |].
        intros ->. apply (Hfresh i).
        -- apply (list_elem_of_fmap_2 snd table (name, i)). exact Hin.
        -- apply list_elem_of_singleton. reflexivity.
      * apply list_elem_of_singleton in Hin. injection Hin as -> ->.
        apply lookup_insert_eq.
  - apply index_to_class_missing.
  - intros model_type row r Hr Hmissing.
    destruct row as [| first rest]; [discriminate |].
    unfold process_prediction in Hr.
    destruct (length (first :: rest) =? 1)%nat;
      [destruct (0.5 <? first)%float |]; injection Hr as <-;
      cbn [class_id class_name] in *;
      rewrite (index_to_class_missing table _ Hmissing); split; reflexivity.
Qed.

Lemma label_table_lookup_witness :
  index_to_class [("quiet", 0); ("snoring", 1)] !! 1 = Some "snoring"
  /\ index_to_class [("quiet", 0); ("snoring", 1)] !! 2 = None.
Proof.
  split.
  - apply (proj1 (label_table_lookup [("quiet", 0); ("snoring", 1)])).
    + apply (bool_decide_unpack _). vm_compute. exact I.
    + apply (bool_decide_unpack _). vm_compute. exact I.
  - apply (proj1 (proj2 (label_table_lookup [("quiet", 0); ("snoring", 1)]))).
    apply (bool_decide_unpack _). vm_compute. exact I.
Defined.

(** X22. The length normalisation gives every clip exactly
    [SAMPLE_RATE * AUDIO_DURATION] samples: a longer clip keeps its first
    samples, a shorter one keeps all of its samples and is filled up with
    zeros at the end.  Normalising twice changes nothing more. *)
Theorem normalize_length_exact (config : SystemConfig) (audio : list float) :
  0 <= SAMPLE_RATE config * AUDIO_DURATION config ->
  let target := Z.to_nat (SAMPLE_RATE config * AUDIO_DURATION config) in
  length (normalize_length config audio) = target
  /\ take (length audio) (normalize_length config audio) = take target audio
  /\ drop (length audio) (normalize_length config audio)
     = replicate (target - length audio) 0%float
  /\ normalize_length config (normalize_length config audio)
     = normalize_length config audio.
Proof.
  intros Htarget. cbv zeta.
  assert (Hlen : forall a : list float,
             length (normalize_length config a)
             = Z.to_nat (SAMPLE_RATE config * AUDIO_DURATION config)).
  { intros a. unfold normalize_length.
    destruct (Z.gtb_spec (Z.of_nat (length a)) (SAMPLE_RATE config * AUDIO_DURATION config)).
    - rewrite length_take. lia.
    - rewrite length_app, length_replicate. lia. }
  split; [apply Hlen | split; [| split]].
  - unfold normalize_length.
    destruct (Z.gtb_spec (Z.of_nat (length audio))
                (SAMPLE_RATE config * AUDIO_DURATION config)).
    + rewrite take_take. f_equal. lia.
    + rewrite take_app_length. symmetry. apply take_ge. lia.
  - unfold normalize_length.
    destruct (Z.gtb_spec (Z.of_nat (length audio))
                (SAMPLE_RATE config * AUDIO_DURATION config)).
    + rewrite drop_ge by (rewrite length_take; lia).
      replace (Z.to_nat (SAMPLE_RATE config * AUDIO_DURATION config) - length audio)%nat
        with 0%nat by lia. reflexivity.
    + rewrite drop_app_length. f_equal. lia.
  - unfold normalize_length at 1. rewrite Hlen.
    destruct (Z.gtb_spec
                (Z.of_nat (Z.to_nat (SAMPLE_RATE config * AUDIO_DURATION config)))
                (SAMPLE_RATE config * AUDIO_DURATION config)); [lia |].
    replace (Z.to_nat (SAMPLE_RATE config * AUDIO_DURATION config
                       - Z.of_nat (Z.to_nat (SAMPLE_RATE config * AUDIO_DURATION config))))
      with 0%nat by lia.
    apply app_nil_r.
Qed.

Lemma normalize_length_exact_witness :
  length (normalize_length default_config [1%float; 2%float])
  = Z.to_nat (SAMPLE_RATE default_config * AUDIO_DURATION default_config).
Proof.
  apply (proj1 (normalize_length_exact default_config [1%float; 2%float]
                  ltac:(vm_compute; discriminate))).
Defined.

(** ** Retention of the audio files *)

Lemma insert_by_mtime_perm (x : entry) (l : list entry) :
  insert_by_mtime x l ≡ₚ x :: l.
Proof.
  induction l as [| y l IH]; cbn; [reflexivity |].
  destruct (snd x <? snd y); [reflexivity |].
  rewrite IH. apply Permutation_swap.
Qed.

Lemma insert_by_mtime_sorted (x : entry) (l : list entry) :
  StronglySorted not_newer l -> StronglySorted not_newer (insert_by_mtime x l).
Proof.
  induction l as [| y l IH]; intros Hsorted; cbn.
  - repeat constructor.
  - apply StronglySorted_inv in Hsorted as [Hl Hy].
    destruct (Z.ltb_spec (snd x) (snd y)) as [Hlt | Hge].
    + constructor; [constructor; assumption |].
      constructor; [unfold not_newer; lia |].
      eapply Forall_impl; [exact Hy |]. unfold not_newer. intros z Hz. lia.
    + constructor; [apply IH; exact Hl |].
      rewrite insert_by_mtime_perm. constructor; [exact Hge | exact Hy].
Qed.

Lemma sort_by_mtime_from (l sorted : list entry) :
  StronglySorted not_newer sorted ->
  StronglySorted not_newer (fold_left (fun sorted x => insert_by_mtime x sorted) l sorted)
  /\ fold_left (fun sorted x => insert_by_mtime x sorted) l sorted ≡ₚ sorted ++ l.
Proof.
  revert sorted. induction l as [| x l IH]; intros sorted Hsorted; cbn [fold_left].
  - split; [exact Hsorted | rewrite app_nil_r; reflexivity].
  - destruct (IH (insert_by_mtime x sorted) (insert_by_mtime_sorted x sorted Hsorted))
      as [Hs Hp].
    split; [exact Hs |]. rewrite Hp, insert_by_mtime_perm.
    cbn [app]. apply Permutation_middle.
Qed.

Lemma audio_files_sorted (listing : list entry) :
  StronglySorted not_newer (audio_files listing)
  /\ audio_files listing ≡ₚ filter (fun e => is_recording_file (fst e) = true) listing.
Proof.
  unfold audio_files, sort_by_mtime.
  destruct (sort_by_mtime_from
              (filter (fun e => is_recording_file (fst e) = true) listing) [])
    as [Hs Hp]; [constructor |].
  split; assumption.
Qed.

(** X23. [cleanup_old_files] keeps the newest [MAX_AUDIO_FILES] recordings.
    With a positive limit, the files it sets out to delete and the files it
    keeps make up the recordings of the folder, oldest first; it keeps
    [MAX_AUDIO_FILES] of them, or all when there are no more than that; no
    deleted file is newer than a kept one; and only files of the folder
    named [recording_*.wav] are deleted.  Modification times are counted in
    clock ticks. *)
Theorem retention_keeps_newest (config : SystemConfig) (listing : list entry) :
  0 < MAX_AUDIO_FILES config ->
  files_to_remove config listing ++ files_kept config listing = audio_files listing
  /\ length (files_kept config listing)
     = Nat.min (length (audio_files listing)) (Z.to_nat (MAX_AUDIO_FILES config))
  /\ (forall r k, r ∈ files_to_remove config listing -> k ∈ files_kept config listing ->
        snd r <= snd k)
  /\ (forall r, r ∈ files_to_remove config listing ->
        r ∈ listing /\ is_recording_file (fst r) = true).
Proof.
  destruct (audio_files_sorted listing) as [Hsorted Hperm].
  intros Hmax.
  assert (Hsplit : files_to_remove config listing ++ files_kept config listing
                   = audio_files listing).
  { unfold files_kept. unfold files_to_remove at 2.
    destruct (Z.gtb_spec (Z.of_nat (length (audio_files listing)))
                (MAX_AUDIO_FILES config)) as [Hgt | Hle].
    - unfold files_to_remove.
      destruct (Z.gtb_spec (Z.of_nat (length (audio_files listing)))
                  (MAX_AUDIO_FILES config)); [| lia].
      unfold slice_until.
      destruct (Z.leb_spec 0 (- MAX_AUDIO_FILES config)); [lia |].
      rewrite length_take, Nat.min_l by lia. apply take_drop.
    - unfold files_to_remove.
      destruct (Z.gtb_spec (Z.of_nat (length (audio_files listing)))
                  (MAX_AUDIO_FILES config)); [lia |]. reflexivity. }
  assert (Hkept : length (files_kept config listing)
                  = Nat.min (length (audio_files listing))
                            (Z.to_nat (MAX_AUDIO_FILES config))).
  { unfold files_kept, files_to_remove.
    destruct (Z.gtb_spec (Z.of_nat (length (audio_files listing)))
                (MAX_AUDIO_FILES config)) as [Hgt | Hle].
    - unfold slice_until.
      destruct (Z.leb_spec 0 (- MAX_AUDIO_FILES config)); [lia |].
      rewrite length_drop, length_take. lia.
    - cbn [length]. rewrite length_drop. lia. }
  split; [exact Hsplit |]. split; [exact Hkept |]. split.
  - intros r k Hr Hk. rewrite <- Hsplit in Hsorted. clear Hsplit Hkept.
    induction (files_to_remove config listing) as [| a rm IH]; [inversion Hr |].
    cbn [app] in Hsorted. apply StronglySorted_inv in Hsorted as [Hrest Hall].
    apply elem_of_cons in Hr as [-> | Hr].
    + rewrite Forall_forall in Hall. apply Hall. apply elem_of_app. right. exact Hk.
    + apply IH; assumption.
  - intros r Hr.
    assert (Hin : r ∈ filter (fun e => is_recording_file (fst e) = true) listing).
    { rewrite <- Hperm, <- Hsplit. apply elem_of_app. left. assumption. }
    apply list_elem_of_filter in Hin as [Hname Hin]. split; assumption.
Qed.

Lemma retention_keeps_newest_witness :
  let listing := [("recording_3.wav", 30); ("notes.txt", 5); ("recording_1.wav", 10);
                  ("recording_2.wav", 20)] in
  let config := with_audio_limit 2 in
  0 < MAX_AUDIO_FILES config
  /\ files_to_remove config listing = [("recording_1.wav", 10)]
  /\ files_kept config listing = [("recording_2.wav", 20); ("recording_3.wav", 30)]
  /\ length (files_kept config listing)
     = Nat.min (length (audio_files listing)) (Z.to_nat (MAX_AUDIO_FILES config)).
Proof.
  cbv zeta.
  split; [reflexivity |]. split; [reflexivity |]. split; [reflexivity |].
  apply (retention_keeps_newest (with_audio_limit 2)
           [("recording_3.wav", 30); ("notes.txt", 5); ("recording_1.wav", 10);
            ("recording_2.wav", 20)]).
  reflexivity.
Defined.

(** X24. A limit of zero deletes nothing: the slice [audio_files[:-0]] is
    [audio_files[:0]], the empty list, so [cleanup_old_files] removes no file
    however many recordings the folder holds. *)
Theorem retention_zero_limit (config : SystemConfig) (listing : list entry) :
  MAX_AUDIO_FILES config = 0 ->
  files_to_remove config listing = []
  /\ files_kept config listing = audio_files listing.
Proof.
  intros Hzero.
  assert (Hnone : files_to_remove config listing = []).
  { unfold files_to_remove. rewrite Hzero.
    destruct (Z.of_nat (length (audio_files listing)) >? 0); reflexivity. }
  split; [exact Hnone |].
  unfold files_kept. rewrite Hnone. reflexivity.
Qed.

Lemma retention_zero_limit_witness :
  MAX_AUDIO_FILES (with_audio_limit 0) = 0
  /\ files_to_remove (with_audio_limit 0)
       [("recording_1.wav", 10); ("recording_2.wav", 20)] = []
  /\ files_kept (with_audio_limit 0)
       [("recording_1.wav", 10); ("recording_2.wav", 20)]
     = [("recording_1.wav", 10); ("recording_2.wav", 20)].
Proof.
  split; [reflexivity |].
  split; [| reflexivity].
  apply (retention_zero_limit (with_audio_limit 0)
           [("recording_1.wav", 10); ("recording_2.wav", 20)]).
  reflexivity.
Defined.
